(** * stock_qty_forecast: the demand series wizard [open.stock.series]

    A shallow embedding of [wizard/open_stock_series.py]: the construction
    of the demand series ([_calculate_data]), the six forecast methods, and
    the two consumers of the series ([action_calculate],
    [action_export_to_xlsx]).

    Modelling conventions.
    - A [datetime] at midnight (everything [DATE_TRUNC] returns for the
      intervals day .. year, and every date lifted by
      [fields.Datetime.from_string]) is the number of days since 1970-01-01,
      a [Z].
    - A Python [float] is a rational [Q]; [0.0] is [0].
    - pandas and statsmodels are not part of the repository.  pandas'
      [resample(freq).sum()] is modelled by [resample_sum] over the calendar
      of module [Calendar]; statsmodels is an interface ([Statsmodels]) whose
      only assumed property is the index of what [predict] returns.
    - xlsxwriter is not part of the repository either: the export creates
      its sheet through the interface [Xlsxwriter], of which nothing is
      assumed, and raises what [add_worksheet] raises. *)

From Stdlib Require Import ZArith QArith Lia Ascii String DecimalString.
From stdpp Require Import base gmap strings list sorting.

Local Open Scope Z_scope.
#[local] Set Warnings "-clear-no-such-hyp".

(** ** The proleptic Gregorian calendar *)

Module Calendar.

Definition is_leap (y : Z) : bool :=
  (y mod 4 =? 0) && (negb (y mod 100 =? 0) || (y mod 400 =? 0)).

(** Days before January 1st of year [y]. *)
Definition days_before_year (y : Z) : Z :=
  let p := y - 1 in p * 365 + p / 4 - p / 100 + p / 400.

Definition days_before_month_common (m : Z) : Z :=
  match m with
  | 1 => 0 | 2 => 31 | 3 => 59 | 4 => 90 | 5 => 120 | 6 => 151
  | 7 => 181 | 8 => 212 | 9 => 243 | 10 => 273 | 11 => 304 | _ => 334
  end.

(** Days of year [y] before the first day of month [m]. *)
Definition days_before_month (y m : Z) : Z :=
  days_before_month_common m + (if (2 <? m) && is_leap y then 1 else 0).

(** The ordinal of a date: 0001-01-01 is day 1. *)
Definition ymd2ord (y m d : Z) : Z :=
  days_before_year y + days_before_month y m + d.

(** A date as days since 1970-01-01. *)
Definition date (y m d : Z) : Z := ymd2ord y m d - 719163.

(** Months are numbered [12 * year + (month - 1)]. *)
Definition month_first (i : Z) : Z := date (i / 12) (i mod 12 + 1) 1.

Definition month_last (i : Z) : Z := month_first (i + 1) - 1.

(** The month a day falls in.  A month is 146097/4800 days long on
    average (the calendar repeats every 400 years), which places day [n]
    within one month of the estimate [g]; the first days of the months
    around [g] decide. *)
Definition month_index (n : Z) : Z :=
  let g := 4800 * (n + 719528) / 146097 in
  if n <? month_first g then g - 1
  else if month_first (g + 1) <=? n then g + 1
  else g.

(** [f] holds of the [n] integers from [z] on. *)
Fixpoint all_from (f : Z -> bool) (n : nat) (z : Z) : bool :=
  match n with
  | O => true
  | S n' => f z && all_from f n' (z + 1)
  end.

(** Month [i] starts within a month of where the mean month length puts
    it, and before month [i + 1] does. *)
Definition month_first_ok (i : Z) : bool :=
  (146097 * (i - 1) <=? 4800 * (month_first i + 719528))
  && (4800 * (month_first i - 1 + 719528) <? 146097 * (i + 1))
  && (month_first i <? month_first (i + 1)).

End Calendar.

(** ** pandas: date offsets, resampling, [to_dict] *)

(** A series indexed by dates, in index order. *)
Definition Series : Type := list (Z * Q).

(** A date offset: which bin a day falls in, and the date that labels a
    bin in the resampled index. *)
Record Offset := { bin : Z -> Z; label : Z -> Z }.

Record OffsetLaws (o : Offset) : Prop := {
  bin_mono : forall d d', d <= d' -> bin o d <= bin o d';
  label_lt : forall i j, i < j -> label o i < label o j;
  bin_label : forall i, bin o (label o i) = i
}.

Module Offsets.

(** ['D']: one bin per calendar day. *)
Definition Day : Offset := {| bin := fun d => d; label := fun i => i |}.

(** ['W'] is ['W-SUN']: weeks end on Sunday and are labelled by it;
    1970-01-04 (day 3) is a Sunday. *)
Definition Week : Offset :=
  {| bin := fun d => (d + 3) / 7; label := fun i => 7 * i + 3 |}.

(** ['M']: calendar months, labelled by their last day. *)
Definition MonthEnd : Offset :=
  {| bin := Calendar.month_index; label := Calendar.month_last |}.

(** ['Q'] is ['Q-DEC']: quarters ending in March, June, September and
    December, labelled by their last day. *)
Definition QuarterEnd : Offset :=
  {| bin := fun d => Calendar.month_index d / 3;
     label := fun i => Calendar.month_last (3 * i + 2) |}.

(** ['Y'] is ['A-DEC']: calendar years, labelled by December 31st. *)
Definition YearEnd : Offset :=
  {| bin := fun d => Calendar.month_index d / 12;
     label := fun i => Calendar.month_last (12 * i + 11) |}.

End Offsets.

(** Frequency aliases are resolved case-insensitively.  The wizard only
    ever passes the first letter of one of its five intervals; a letter
    that is none of them is never passed, and reads as ['D'] here. *)
Definition to_offset (freq : ascii) : Offset :=
  if Ascii.eqb freq "w" then Offsets.Week
  else if Ascii.eqb freq "m" then Offsets.MonthEnd
  else if Ascii.eqb freq "q" then Offsets.QuarterEnd
  else if Ascii.eqb freq "y" then Offsets.YearEnd
  else Offsets.Day.

(** The frame [moves_table] after resampling: a [DatetimeIndex] that
    carries its frequency, and the one numeric column ["qty"]. *)
Record DataFrame := { df_freq : ascii; df_qty : Series }.

Definition len (data : DataFrame) : Z := Z.of_nat (length (df_qty data)).

Definition Qsum (l : list Q) : Q := fold_left Qplus l 0%Q.

(** The rows of [rows] whose date falls in bin [b]. *)
Definition in_bin (o : Offset) (b : Z) (rows : Series) : Series :=
  filter (fun r => bin o r.1 = b) rows.

(** [DataFrame(moves).set_index(date_gr).resample(freq).sum()]: one row
    per bin from the earliest to the latest bin that holds a row, labelled
    by the bin's date, with the sum of the quantities that fall in it (the
    sum of no rows is [0]). *)
Definition resample_sum (freq : ascii) (rows : Series) : DataFrame :=
  let o := to_offset freq in
  match map (fun r => bin o r.1) rows with
  | [] => {| df_freq := freq; df_qty := [] |}
  | b :: bs =>
      let lo := fold_right Z.min b bs in
      let hi := fold_right Z.max b bs in
      {| df_freq := freq;
         df_qty := map (fun i => (label o i, Qsum (map snd (in_bin o i rows))))
                       (seqZ lo (hi - lo + 1)) |}
  end.

(** [fillna(0.0)]: a rational column holds no NaN. *)
Definition fillna (v : Q) (data : DataFrame) : DataFrame := data.

(** Storing [k: v] in an insertion-ordered [dict]: a key that is present
    keeps its place and takes the new value. *)
Fixpoint dict_set (k : Z) (v : Q) (d : list (Z * Q)) : list (Z * Q) :=
  match d with
  | [] => [(k, v)]
  | (k', v') :: d' => if decide (k' = k) then (k, v) :: d' else (k', v') :: dict_set k v d'
  end.

(** [Series.to_dict().items()]. *)
Definition to_dict (s : Series) : list (Z * Q) :=
  fold_left (fun d kv => dict_set kv.1 kv.2 d) s [].

(** The date at integer position [p] of the index of [data], continued
    past its end at the frequency of the index. *)
Definition position_date (data : DataFrame) (p : Z) : Z :=
  let o := to_offset (df_freq data) in
  match df_qty data with
  | [] => label o p
  | (d0, _) :: _ => label o (bin o d0 + p)
  end.

(** ** statsmodels *)

Definition Exception : Type := string.

(** The time-series models the wizard uses.  A model and its fitted
    results belong to the frame they were built on.  Constructing, fitting
    and predicting can each raise. *)
Record Statsmodels := {
  model : DataFrame -> Type;
  results : DataFrame -> Type;
  AutoReg : forall data, Z -> Exception + model data;
  ARDL : forall data, Z -> Exception + model data;
  ARIMA : forall data, Z * Z * Z -> Exception + model data;
  SARIMAX : forall data, Z * Z * Z -> Z * Z * Z * Z -> Exception + model data;
  ExponentialSmoothing : forall data, Exception + model data;
  SimpleExpSmoothing : forall data, Exception + model data;
  fit : forall data, model data -> Exception + results data;
  predict : forall data, results data -> Z -> Z -> option string -> Exception + Series
}.

Arguments AutoReg _ {data}.
Arguments ARDL _ {data}.
Arguments ARIMA _ {data}.
Arguments SARIMAX _ {data}.
Arguments ExponentialSmoothing _ {data}.
Arguments SimpleExpSmoothing _ {data}.
Arguments fit _ {data}.
Arguments predict _ {data}.

(** What is assumed of statsmodels: [predict(start, end)] answers with one
    value for each of the positions [start .. end], indexed by their
    dates. *)
Definition predict_index (sm : Statsmodels) : Prop :=
  forall data (r : results sm data) start end_ typ f,
    predict sm r start end_ typ = inr f ->
    f.*1 = position_date data <$> seqZ start (end_ - start + 1).

(** ** Python values *)

Inductive pyval :=
| PyDate (d : Z)
| PyFloat (q : Q)
| PyBool (b : bool)
| PyStr (s : string).

(** A record of the result: a [dict] with string keys. *)
Abbreviation move := (gmap string pyval).

(** Truth value of [d.get(k)]; an absent key gives [None], which is false. *)
Definition truthy (v : option pyval) : bool :=
  match v with
  | None => false
  | Some (PyDate _) => true
  | Some (PyFloat q) => negb (Qeq_bool q 0)
  | Some (PyBool b) => b
  | Some (PyStr s) => negb (String.eqb s "")
  end.

Definition Qltb (x y : Q) : bool := negb (Qle_bool y x).

(** The integer nearest to [x], ties to the even one. *)
Definition round_half_even (x : Q) : Z :=
  let n := Qnum x in
  let d := Z.pos (Qden x) in
  let fl := n / d in
  let r2 := 2 * (n mod d) in
  if r2 <? d then fl
  else if d <? r2 then fl + 1
  else if Z.even fl then fl else fl + 1.

(** [round(x, ndigits)] for [ndigits >= 0]. *)
Definition py_round (x : Q) (ndigits : Z) : Q :=
  let s := 10 ^ ndigits in
  round_half_even (x * inject_Z s) # Z.to_pos s.

(** [c and a or b] where [a] and [b] are floats. *)
Definition and_or (c : bool) (a b : Q) : Q :=
  if c && negb (Qeq_bool a 0) then a else b.

(** [sorted(l, key=key, reverse=True)]: descending, and stable. *)
Fixpoint insert_desc {A} (key : A -> Z) (x : A) (l : list A) : list A :=
  match l with
  | [] => [x]
  | y :: l' => if key x <? key y then y :: insert_desc key x l' else x :: l
  end.

Definition sorted_reverse {A} (key : A -> Z) (l : list A) : list A :=
  fold_right (insert_desc key) [] l.

(** ** Logging and exceptions *)

Inductive log_level := WARNING | ERROR.

(** A computation that may write to [_logger]. *)
Definition Logged (A : Type) : Type := A * list (log_level * string).

Definition bind_exn {A B} (c : Exception + A) (k : A -> Exception + B) : Exception + B :=
  match c with
  | inl er => inl er
  | inr a => k a
  end.

Notation "x <- c ;; k" := (bind_exn c (fun x => k))
  (at level 100, c at next level, right associativity).

(** What a forecast method returns: [False] or the predicted series. *)
Inductive forecast :=
| Unavailable
| Predicted (prediction : Series).

(** The record of [_logger.warning(u"The data is ... Error: {}".format(er))]. *)
Definition warning (er : Exception) : log_level * string :=
  (WARNING, "The data is not sufficient to make prediction. Error: " +:+ er).

(** [try: prediction = body / except Exception as er: warn; prediction = False]. *)
Definition try_predict (body : Exception + Series) : Logged forecast :=
  match body with
  | inr prediction => (Predicted prediction, [])
  | inl er => (Unavailable, [warning er])
  end.

(** ** The wizard *)

Inductive interval_sel := day | week | month | quarter | year.

Definition interval_key (i : interval_sel) : string :=
  match i with
  | day => "day" | week => "week" | month => "month"
  | quarter => "quarter" | year => "year"
  end.

(** The forecast methods offered by [forecast_method_selection]. *)
Inductive method_sel :=
| ar_method | ma_method | arima_method | sarima_method | hwes_method | ses_method.

Record open_stock_series := {
  date_start : option Z;
  date_end : option Z;
  predicted_periods : Z;
  interval : interval_sel;
  forecast_method : method_sel;
  lags : Z;
  seasons : Z;
  p_coefficient : Z;
  d_coefficient : Z;
  q_coefficient : Z;
  seasonal_p_coefficient : Z;
  seasonal_d_coefficient : Z;
  seasonal_q_coefficient : Z
}.

(** [_sql_constraints]. *)
Definition predicted_periods_check (self : open_stock_series) : Prop :=
  0 < predicted_periods self.

Definition dates_check (self : open_stock_series) : Prop :=
  match date_start self, date_end self with
  | Some ds, Some de => ds < de
  | _, _ => True
  end.

Definition set_predicted_periods (n : Z) (self : open_stock_series) : open_stock_series :=
  {| date_start := date_start self;
     date_end := date_end self;
     predicted_periods := n;
     interval := interval self;
     forecast_method := forecast_method self;
     lags := lags self;
     seasons := seasons self;
     p_coefficient := p_coefficient self;
     d_coefficient := d_coefficient self;
     q_coefficient := q_coefficient self;
     seasonal_p_coefficient := seasonal_p_coefficient self;
     seasonal_d_coefficient := seasonal_d_coefficient self;
     seasonal_q_coefficient := seasonal_q_coefficient self |}.

(** [_onchange_forecast_method]; [param] is the configured
    ["stock_qty_predicted_periods"]. *)
Definition _onchange_forecast_method (param : Z) (self : open_stock_series)
  : open_stock_series :=
  let predicted_periods :=
    match forecast_method self with
    | hwes_method | ses_method => 1
    | _ => param
    end in
  set_predicted_periods predicted_periods self.

(** [freq = interval[0]]. *)
Definition freq (self : open_stock_series) : ascii :=
  match interval_key (interval self) with
  | String c _ => c
  | EmptyString => "d"%char
  end.

(** What [_calculate_data] returns: [False] or the list of records. *)
Inductive calculated :=
| NoData
| Moves (res_moves : list move).

(** The synthetic bucket at [date_start], when the first bucket starts
    after it. *)
Definition add_date_start (self : open_stock_series) (moves : Series) : Series :=
  match date_start self, moves with
  | Some ds, first :: _ => if ds <? first.1 then moves ++ [(ds, 0%Q)] else moves
  | _, _ => moves
  end.

(** The synthetic bucket at [date_end], when [moves[-1]] starts before it. *)
Definition add_date_end (self : open_stock_series) (moves : Series) : Series :=
  match date_end self, last moves with
  | Some de, Some final => if final.1 <? de then moves ++ [(de, 0%Q)] else moves
  | _, _ => moves
  end.

(** Step 2 of [_calculate_data]: the frame [moves_table]. *)
Definition normalize (self : open_stock_series) (moves : Series) : DataFrame :=
  let moves := add_date_start self moves in
  let moves := add_date_end self moves in
  fillna 0 (resample_sum (freq self) moves).

Definition history_move (kv : Z * Q) : move :=
  {[ "date_datetime" := PyDate kv.1; "quantity" := PyFloat kv.2 ]}.

Definition forecast_move (kv : Z * Q) : move :=
  {[ "date_datetime" := PyDate kv.1;
     "quantity" := PyFloat (and_or (Qltb 0 kv.2) (py_round kv.2 2) 0);
     "forecast" := PyBool true ]}.

(** [not moves]. *)
Definition not_ (moves : calculated) : bool :=
  match moves with
  | NoData => true
  | Moves [] => true
  | Moves (_ :: _) => false
  end.

Inductive cell := Cell (row col : Z) (value : option pyval) (format : string).

Inductive action :=
| display_notification (title message : string) (sticky : bool)
| report_stock_demand_action (demands : list move) (context : string)
| download (worksheet : list cell).

Definition NODATATITLE : string := "Not enough stock operations in the period".
Definition NODATAWARNING : string :=
  "No historical data is defined for the specified period".

(** The key of the export's sort, [k['date_datetime']]. *)
Definition date_datetime (k : move) : Z :=
  match k !! "date_datetime" with
  | Some (PyDate d) => d
  | _ => 0
  end.

(** The two cells written for [move] on row [row]. *)
Definition write_move (row : Z) (m : move) : list cell :=
  let red := if truthy (m !! "forecast") then "red_" else "" in
  [ Cell row 0 (m !! "date_datetime") (red +:+ "data_time_format");
    Cell row 1 (m !! "quantity") (red +:+ "main_data_style") ].

Fixpoint write_moves (row : Z) (moves : list move) : list cell :=
  match moves with
  | [] => []
  | m :: moves => write_move row m ++ write_moves (row + 1) moves
  end.

Definition header : list cell :=
  [ Cell 0 0 (Some (PyStr "Date")) "main_header_style";
    Cell 0 1 (Some (PyStr "Demand")) "main_header_style" ].

Section Forecast.

Context (sm : Statsmodels).

Definition _ar_method (self : open_stock_series) (data : DataFrame) : Logged forecast :=
  try_predict (
    model <- AutoReg sm (data := data) (lags self) ;;
    model_fit <- fit sm model ;;
    predict sm model_fit (len data) (len data + predicted_periods self - 1) None).

Definition _ma_method (self : open_stock_series) (data : DataFrame) : Logged forecast :=
  try_predict (
    model <- ARDL sm (data := data) (lags self) ;;
    model_fit <- fit sm model ;;
    predict sm model_fit (len data) (len data + predicted_periods self - 1) None).

Definition _arima_method (self : open_stock_series) (data : DataFrame) : Logged forecast :=
  try_predict (
    model <- ARIMA sm (data := data)
               (p_coefficient self, d_coefficient self, q_coefficient self) ;;
    model_fit <- fit sm model ;;
    predict sm model_fit (len data) (len data + predicted_periods self - 1)
      (Some "levels")).

Definition _sarima_method (self : open_stock_series) (data : DataFrame) : Logged forecast :=
  try_predict (
    model <- SARIMAX sm (data := data)
               (p_coefficient self, d_coefficient self, q_coefficient self)
               (seasonal_p_coefficient self, seasonal_d_coefficient self,
                seasonal_q_coefficient self, seasons self) ;;
    model_fit <- fit sm model ;;
    predict sm model_fit (len data) (len data + predicted_periods self - 1) None).

Definition _hwes_method (self : open_stock_series) (data : DataFrame) : Logged forecast :=
  try_predict (
    model <- ExponentialSmoothing sm (data := data) ;;
    model_fit <- fit sm model ;;
    predict sm model_fit (len data) (len data + predicted_periods self - 1) None).

Definition _ses_method (self : open_stock_series) (data : DataFrame) : Logged forecast :=
  try_predict (
    model <- SimpleExpSmoothing sm (data := data) ;;
    model_fit <- fit sm model ;;
    predict sm model_fit (len data) (len data + predicted_periods self - 1) None).

(** [getattr(self, self.forecast_method)]. *)
Definition method_to_call (self : open_stock_series)
  : DataFrame -> Logged forecast :=
  match forecast_method self with
  | ar_method => _ar_method self
  | ma_method => _ma_method self
  | arima_method => _arima_method self
  | sarima_method => _sarima_method self
  | hwes_method => _hwes_method self
  | ses_method => _ses_method self
  end.

(** [_calculate_data], from the rows [moves] that the query returned. *)
Definition _calculate_data (self : open_stock_series) (moves : Series)
  : Logged calculated :=
  match moves with
  | [] => (NoData, [])
  | _ :: _ =>
      let moves_table := normalize self moves in
      let '(forecast, log) := method_to_call self moves_table in
      let res_moves := map history_move (to_dict (df_qty moves_table)) in
      match forecast with
      | Predicted prediction =>
          (Moves (res_moves ++ map forecast_move (to_dict prediction)), log)
      | Unavailable => (Moves res_moves, log)
      end
  end.

Definition action_calculate (self : open_stock_series) (moves : Series)
  : Logged action :=
  let '(moves, log) := _calculate_data self moves in
  if not_ moves then (display_notification NODATATITLE NODATAWARNING false, log)
  else
    match moves with
    | NoData => (display_notification NODATATITLE NODATAWARNING false, log)
    | Moves moves =>
        (report_stock_demand_action moves
           ("search_default_" +:+ interval_key (interval self)), log)
    end.

End Forecast.

(** ** Where a method can fail

    The model a method constructs, and the [typ] it passes to [predict]. *)

Definition model_of (sm : Statsmodels) (self : open_stock_series) (data : DataFrame)
  : Exception + model sm data :=
  match forecast_method self with
  | ar_method => AutoReg sm (lags self)
  | ma_method => ARDL sm (lags self)
  | arima_method =>
      ARIMA sm (p_coefficient self, d_coefficient self, q_coefficient self)
  | sarima_method =>
      SARIMAX sm (p_coefficient self, d_coefficient self, q_coefficient self)
        (seasonal_p_coefficient self, seasonal_d_coefficient self,
         seasonal_q_coefficient self, seasons self)
  | hwes_method => ExponentialSmoothing sm
  | ses_method => SimpleExpSmoothing sm
  end.

Definition typ_of (self : open_stock_series) : option string :=
  match forecast_method self with
  | arima_method => Some "levels"
  | _ => None
  end.

(** The selected method raises [er] on [data]: while constructing the
    model, while fitting it, or while predicting. *)
Inductive raises (sm : Statsmodels) (self : open_stock_series) (data : DataFrame)
  (er : Exception) : Prop :=
| raises_model :
    model_of sm self data = inl er -> raises sm self data er
| raises_fit m :
    model_of sm self data = inr m -> fit sm m = inl er -> raises sm self data er
| raises_predict m model_fit :
    model_of sm self data = inr m -> fit sm m = inr model_fit ->
    predict sm model_fit (len data) (len data + predicted_periods self - 1)
      (typ_of self) = inl er ->
    raises sm self data er.

(** ** A statsmodels to run the wizard on

    Exponential smoothing with smoothing level 1: every forecast is the
    last observation.  A model needs more observations than the lags or
    the orders it is asked to use. *)

Module Naive.

Definition needs (order : Z) (data : DataFrame) : Exception + Z :=
  if order <? len data then inr order
  else inl "insufficient observations".

Definition level (data : DataFrame) : Q :=
  match last (df_qty data) with
  | Some kv => kv.2
  | None => 0%Q
  end.

Definition forecast_at (data : DataFrame) (level : Q) (start end_ : Z)
  : Exception + Series :=
  if end_ <? start then inl "Prediction must have `end` after `start`."
  else inr (map (fun p => (position_date data p, level))
                (seqZ start (end_ - start + 1))).

Definition statsmodels : Statsmodels :=
  {| model := fun _ => Z;
     results := fun _ => Q;
     AutoReg := fun data lags => needs lags data;
     ARDL := fun data lags => needs lags data;
     ARIMA := fun data '(p, d, q) => needs (p + d) data;
     SARIMAX := fun data '(p, d, q) '(P, D, Q, s) => needs (p + d + s * (P + D)) data;
     ExponentialSmoothing := fun data => needs 0 data;
     SimpleExpSmoothing := fun data => needs 0 data;
     fit := fun data _ => inr (level data);
     predict := fun data level start end_ _ => forecast_at data level start end_ |}.

End Naive.

(** ** The scenario of the specification

    Buckets on 2024-01-01 and 2024-01-03, a daily interval, and the series
    asked for from 2024-01-01 to 2024-01-03. *)

Module Scenario.

Definition request (method : method_sel) (periods : Z) : open_stock_series :=
  {| date_start := Some (Calendar.date 2024 1 1);
     date_end := Some (Calendar.date 2024 1 3);
     predicted_periods := periods;
     interval := day;
     forecast_method := method;
     lags := 0;
     seasons := 1;
     p_coefficient := 5;
     d_coefficient := 1;
     q_coefficient := 0;
     seasonal_p_coefficient := 1;
     seasonal_d_coefficient := 1;
     seasonal_q_coefficient := 1 |}.

Definition raw : Series :=
  [(Calendar.date 2024 1 1, 5%Q); (Calendar.date 2024 1 3, 7%Q)].

(** Eight days of demand, and a request over all the history. *)
Definition daily : Series :=
  [(19723, 1%Q); (19724, 2%Q); (19725, 3%Q); (19726, 4%Q);
   (19727, 5%Q); (19728, 6%Q); (19729, 7%Q); (19730, 8%Q)].

Definition unbounded (self : open_stock_series) : open_stock_series :=
  {| date_start := None;
     date_end := None;
     predicted_periods := predicted_periods self;
     interval := interval self;
     forecast_method := forecast_method self;
     lags := lags self;
     seasons := seasons self;
     p_coefficient := p_coefficient self;
     d_coefficient := d_coefficient self;
     q_coefficient := q_coefficient self;
     seasonal_p_coefficient := seasonal_p_coefficient self;
     seasonal_d_coefficient := seasonal_d_coefficient self;
     seasonal_q_coefficient := seasonal_q_coefficient self |}.

(** The same buckets when the series is asked for from 2023-12-31. *)
Definition early (self : open_stock_series) : open_stock_series :=
  {| date_start := Some (Calendar.date 2023 12 31);
     date_end := date_end self;
     predicted_periods := predicted_periods self;
     interval := interval self;
     forecast_method := forecast_method self;
     lags := lags self;
     seasons := seasons self;
     p_coefficient := p_coefficient self;
     d_coefficient := d_coefficient self;
     q_coefficient := q_coefficient self;
     seasonal_p_coefficient := seasonal_p_coefficient self;
     seasonal_d_coefficient := seasonal_d_coefficient self;
     seasonal_q_coefficient := seasonal_q_coefficient self |}.

End Scenario.

(** ** Dates as the form reads them *)

Module Datetime.

Definition year_of (d : Z) : Z := Calendar.month_index d / 12.

Definition month_of (d : Z) : Z := Calendar.month_index d mod 12 + 1.

Definition day_of (d : Z) : Z :=
  d - Calendar.month_first (Calendar.month_index d) + 1.

(** [date.weekday()]: Monday is 0; 1970-01-01 was a Thursday. *)
Definition weekday (d : Z) : Z := (d + 3) mod 7.

Definition mdays (m : Z) : Z :=
  match m with
  | 2 => 28
  | 4 | 6 | 9 | 11 => 30
  | _ => 31
  end.

Definition days_in_month (y m : Z) : Z :=
  mdays m + (if (m =? 2) && Calendar.is_leap y then 1 else 0).

(** [repr(n)] of an [int]. *)
Definition repr_int (n : Z) : string := NilZero.string_of_int (Z.to_int n).

(** [calendar.monthrange(year, month)[1]]; a month outside 1..12 raises
    [IllegalMonthError(month)], which reads
    ["bad month number %r; must be 1-12" % month]. *)
Definition monthrange_days (y m : Z) : Exception + Z :=
  if (1 <=? m) && (m <=? 12) then inr (days_in_month y m)
  else inl ("bad month number " +:+ repr_int m +:+ "; must be 1-12").

(** [date(year=y, month=m, day=d)]; [ValueError] outside the calendar. *)
Definition new_date (y m d : Z) : Exception + Z :=
  if negb ((1 <=? m) && (m <=? 12)) then inl "month must be in 1..12"
  else if negb ((1 <=? d) && (d <=? days_in_month y m))
       then inl "day is out of range for month"
       else inr (Calendar.date y m d).

(** [d - relativedelta(months=n)]: [n] months back, on the same day of
    the month or on the last one the month has. *)
Definition minus_months (d n : Z) : Z :=
  let i := Calendar.month_index d - n in
  let y := i / 12 in
  let m := i mod 12 + 1 in
  Calendar.date y m (Z.min (day_of d) (days_in_month y m)).

(** [s.zfill(width)] for the digits of a number that is not negative. *)
Definition zfill (width : nat) (s : string) : string :=
  String.concat "" (replicate (width - String.length s) "0") +:+ s.

(** [str(d)] of a date, [YYYY-MM-DD]; the years of [datetime.date] are
    1 to 9999. *)
Definition isoformat (d : Z) : string :=
  zfill 4 (repr_int (year_of d)) +:+ "-" +:+
  zfill 2 (repr_int (month_of d)) +:+ "-" +:+
  zfill 2 (repr_int (day_of d)).

End Datetime.

(** ** Floats where the rounding matters

    [_onchange_interval] divides with [/], which is the division of floats,
    and truncates the result: there the value depends on how a double
    rounds.  [round] is the double nearest to a rational, ties to the even
    mantissa, for the magnitudes that occur (no overflow, no subnormal). *)

Module Float64.

Definition pow2 (e : Z) : Q := Qpower 2 e.

(** The [e] with [2^e <= x < 2^(e+1)], for [0 < x]. *)
Definition exponent (x : Q) : Z :=
  let e := Z.log2 (Qnum x) - Z.log2 (Z.pos (Qden x)) in
  if Qltb x (pow2 e) then e - 1 else e.

Definition round_pos (x : Q) : Q :=
  let ulp := pow2 (exponent x - 52) in
  Qred (inject_Z (round_half_even (x / ulp)) * ulp).

Definition round (x : Q) : Q :=
  if Qeq_bool x 0 then 0%Q
  else if Qltb x 0 then Qopp (round_pos (Qopp x))
  else round_pos x.

Definition div (x y : Q) : Q := round (x / y).

Definition add (x y : Q) : Q := round (x + y).

Definition mul (x y : Q) : Q := round (x * y).

(** [int(x)]: towards zero. *)
Definition int (x : Q) : Z := Z.quot (Qnum x) (Z.pos (Qden x)).

End Float64.

(** ** [_onchange_interval] *)

Definition set_date_end_seasons (res_date seasons : Z) (self : open_stock_series)
  : open_stock_series :=
  {| date_start := date_start self;
     date_end := Some res_date;
     predicted_periods := predicted_periods self;
     interval := interval self;
     forecast_method := forecast_method self;
     lags := lags self;
     seasons := seasons;
     p_coefficient := p_coefficient self;
     d_coefficient := d_coefficient self;
     q_coefficient := q_coefficient self;
     seasonal_p_coefficient := seasonal_p_coefficient self;
     seasonal_d_coefficient := seasonal_d_coefficient self;
     seasonal_q_coefficient := seasonal_q_coefficient self |}.

(** [int(3 * (int((month - 1)) / 3 + 1))]. *)
Definition last_quarter_month (month : Z) : Z :=
  Float64.int
    (Float64.mul 3 (Float64.add (Float64.div (inject_Z (month - 1)) 3) 1)).

(** [_onchange_interval], on the day [today]: the end of the data series
    and the seasons that go with the interval. *)
Definition _onchange_interval (today : Z) (self : open_stock_series)
  : Exception + open_stock_series :=
  match interval self with
  | day =>
      let res_date := today - 1 in
      inr (set_date_end_seasons res_date 7 self)
  | week =>
      let res_date := today - (Datetime.weekday today + 1) in
      inr (set_date_end_seasons res_date 1 self)
  | month =>
      let last_month_date := Datetime.minus_months today 1 in
      let y := Datetime.year_of last_month_date in
      let m := Datetime.month_of last_month_date in
      (days <- Datetime.monthrange_days y m ;;
       res_date <- Datetime.new_date y m days ;;
       inr (set_date_end_seasons res_date 3 self))
  | quarter =>
      let last_quarter_date := Datetime.minus_months today 3 in
      let y := Datetime.year_of last_quarter_date in
      let last_quarter_month :=
        last_quarter_month (Datetime.month_of last_quarter_date) in
      (days <- Datetime.monthrange_days y last_quarter_month ;;
       res_date <- Datetime.new_date y last_quarter_month days ;;
       inr (set_date_end_seasons res_date 2 self))
  | year =>
      let last_year_date := Datetime.minus_months today 12 in
      let y := Datetime.year_of last_year_date in
      (days <- Datetime.monthrange_days y 12 ;;
       res_date <- Datetime.new_date y 12 days ;;
       inr (set_date_end_seasons res_date 1 self))
  end.

(** ** [_build_dynamic_clause] and the query *)

Module Query.

Definition nl : string := String "010" "".

(** The lines of a literal, joined by newlines. *)
Definition lines (l : list string) : string := String.concat nl l.

Definition select_from : string :=
  lines
    [ "";
      "            SELECT";
      "                DATE_TRUNC(%(interval)s, date) as date_gr,";
      "                SUM(product_qty) as qty";
      "            FROM stock_move";
      "            WHERE";
      "                state = 'done'";
      "                AND company_id = %(company_id)s";
      "        " ].

Definition group_order : string :=
  lines
    [ "";
      "            GROUP BY date_gr";
      "            ORDER BY date_gr";
      "        " ].

Definition with_child_locs : string :=
  lines
    [ "";
      "                    WITH RECURSIVE child_locs AS(";
      "                    SELECT id, location_id";
      "                    FROM stock_location";
      "                    WHERE (location_id = %(location_id)s OR id = %(location_id)s) AND usage = 'internal'";
      "";
      "                    UNION";
      "";
      "                    SELECT stock_location.id, stock_location.location_id";
      "                    FROM stock_location";
      "                        JOIN child_locs";
      "                            ON stock_location.location_id = child_locs.id";
      "                )" ].

Definition where_child_locs : string :=
  lines
    [ "";
      "                AND (";
      "                    location_id IN (SELECT id FROM child_locs)";
      "                    AND location_dest_id NOT IN (SELECT id FROM child_locs)";
      "                )";
      "                " ].

Definition where_location : string :=
  lines
    [ "";
      "                AND location_id = %(location_id)s";
      "                " ].

Definition with_internal_locations : string :=
  lines
    [ "";
      "                WITH internal_locations AS (";
      "                SELECT id";
      "                FROM stock_location";
      "                WHERE company_id = %(company_id)s";
      "                      AND usage = 'internal'";
      "            )" ].

Definition where_internal_locations : string :=
  lines
    [ "";
      "                AND (";
      "                    location_id IN (SELECT id FROM internal_locations)";
      "                    AND location_dest_id NOT IN (SELECT id FROM internal_locations)";
      "                )";
      "            " ].

Definition where_product : string :=
  lines
    [ "";
      "            AND product_id = %(product_id)s";
      "            " ].

Definition with_break : string :=
  lines
    [ "";
      "            " ].

Definition with_templ_products : string :=
  lines
    [ " templ_products AS (";
      "                SELECT id";
      "                FROM product_product";
      "                WHERE product_tmpl_id = %(template_id)s";
      "            )";
      "            " ].

Definition where_templ_products : string :=
  lines
    [ "";
      "                AND product_id IN (SELECT id FROM templ_products)";
      "            " ].

Definition where_date_start : string :=
  lines
    [ "";
      "                AND date::date >= %(date_start)s";
      "            " ].

Definition where_date_end : string :=
  lines
    [ "";
      "                AND date::date <= %(date_end)s";
      "            " ].

(** [stats_type]: ["location"], or any other value, which the code takes as
    the demand of the company. *)
Inductive stats_type_sel := location_demand | company_demand.

(** [stats_for]: ["product"], or any other value, which the code takes as
    the template. *)
Inductive stats_for_sel := product | template.

(** The fields of the wizard that only the query reads. *)
Record scope := {
  stats_type : stats_type_sel;
  stats_for : stats_for_sel;
  include_children : bool
}.

(** [_build_dynamic_clause]: the [where_clause] and the [with_clause]. *)
Definition _build_dynamic_clause (sc : scope) (self : open_stock_series)
  : string * string :=
  let where_clause := "" in
  let with_clause := "" in
  let '(where_clause, with_clause) :=
    match stats_type sc with
    | location_demand =>
        if include_children sc
        then (where_clause +:+ where_child_locs, with_clause +:+ with_child_locs)
        else (where_clause +:+ where_location, with_clause)
    | company_demand =>
        (where_clause +:+ where_internal_locations,
         with_clause +:+ with_internal_locations)
    end in
  let '(where_clause, with_clause) :=
    match stats_for sc with
    | product => (where_clause +:+ where_product, with_clause)
    | template =>
        let start_with_clause :=
          if negb (String.eqb with_clause "") then " , " else " WITH " in
        (where_clause +:+ where_templ_products,
         with_clause +:+ (with_break +:+ start_with_clause +:+ with_templ_products))
    end in
  let where_clause :=
    match date_start self with
    | Some _ => where_clause +:+ where_date_start
    | None => where_clause
    end in
  let where_clause :=
    match date_end self with
    | Some _ => where_clause +:+ where_date_end
    | None => where_clause
    end in
  (where_clause, with_clause).

(** The [query] of [_calculate_data]. *)
Definition query (sc : scope) (self : open_stock_series) : string :=
  let '(where_clause, with_clause) := _build_dynamic_clause sc self in
  with_clause +:+ select_from +:+ where_clause +:+ group_order.

(** The keys of [options]. *)
Definition options : list string :=
  [ "interval"; "product_id"; "template_id"; "location_id"; "date_start";
    "date_end"; "company_id" ].

Definition is_space (c : ascii) : bool :=
  Ascii.eqb c " " || Ascii.eqb c "010".

(** [s.split()]: the words of [s]. *)
Fixpoint split_acc (word : string) (s : string) : list string :=
  match s with
  | EmptyString => if String.eqb word "" then [] else [word]
  | String c s' =>
      if is_space c
      then (if String.eqb word "" then split_acc "" s'
            else word :: split_acc "" s')
      else split_acc (word +:+ String c "") s'
  end.

Definition split (s : string) : list string := split_acc "" s.

(** The text of [s] before the first closing parenthesis. *)
Fixpoint before_paren (s : string) : string :=
  match s with
  | EmptyString => EmptyString
  | String c s' => if Ascii.eqb c ")" then EmptyString else String c (before_paren s')
  end.

(** The named parameters [%(name)s] that [s] refers to. *)
Fixpoint placeholders (s : string) : list string :=
  match s with
  | EmptyString => []
  | String c s' =>
      if String.prefix "%(" s
      then before_paren (String.substring 1 (String.length s') s') :: placeholders s'
      else placeholders s'
  end.

(** The tables that [s] reads: the words after [FROM] and [JOIN], less a
    closing parenthesis. *)
Definition strip_paren (w : string) : string :=
  match String.index 0 ")" w with
  | Some n => String.substring 0 n w
  | None => w
  end.

Fixpoint tables (ws : list string) : list string :=
  match ws with
  | [] => []
  | w :: ws' =>
      match ws' with
      | t :: _ =>
          if String.eqb w "FROM" || String.eqb w "JOIN"
          then strip_paren t :: tables ws'
          else tables ws'
      | [] => []
      end
  end.

(** The tables that [s] declares: the words before [AS] or [AS(]. *)
Fixpoint declared (ws : list string) : list string :=
  match ws with
  | [] => []
  | w :: ws' =>
      match ws' with
      | a :: _ =>
          if String.eqb a "AS" || String.eqb a "AS("
          then w :: declared ws'
          else declared ws'
      | [] => []
      end
  end.

End Query.

(** ** [action_export_to_xlsx] *)

(** xlsxwriter, as far as the export can fail in it before the data is
    calculated: [workbook.add_worksheet(name)] raises
    [InvalidWorksheetName] for a name that Excel does not take. *)
Record Xlsxwriter := {
  add_worksheet : string -> Exception + unit
}.

(** [product_id.name] and [template_id.name]; [None] is the [False] that
    a record without a name reads. *)
Record names := {
  product_id_name : option string;
  template_id_name : option string
}.

(** [c and a or b] where [a] and [b] are names. *)
Definition and_or_name (c : bool) (a b : option string) : option string :=
  if c && truthy (PyStr <$> a) then a else b.

(** [str(name)]. *)
Definition str_name (name : option string) : string :=
  match name with
  | Some s => s
  | None => "False"
  end.

(** [u"{}#{}.xlsx".format(..., fields.Date.today())]. *)
Definition xlsx_name (sc : Query.scope) (nm : names) (today : Z) : string :=
  let is_product :=
    match Query.stats_for sc with
    | Query.product => true
    | Query.template => false
    end in
  str_name (and_or_name is_product (product_id_name nm) (template_id_name nm))
  +:+ "#" +:+ Datetime.isoformat today +:+ ".xlsx".

(** [action_export_to_xlsx], on the day [today] and from the rows [moves]
    that the query returned: the sheet is created, and named, before the
    data is calculated. *)
Definition action_export_to_xlsx (xw : Xlsxwriter) (sm : Statsmodels) (today : Z)
  (sc : Query.scope) (nm : names) (self : open_stock_series) (moves : Series)
  : Exception + Logged action :=
  let xlsx_name := xlsx_name sc nm today in
  (worksheet <- add_worksheet xw xlsx_name ;;
   let '(moves, log) := _calculate_data sm self moves in
   if not_ moves
   then inr (display_notification NODATATITLE NODATAWARNING false, log)
   else
     match moves with
     | NoData => inr (display_notification NODATATITLE NODATAWARNING false, log)
     | Moves moves =>
         let moves := sorted_reverse date_datetime moves in
         inr (download (header ++ write_moves 1 moves), log)
     end).

(** ** An xlsxwriter to run the export on

    A workbook that takes a name of at most 31 characters with none of
    the characters that Excel keeps out of the name of a sheet. *)

Module Xlsx.

Definition invalid_char (c : ascii) : bool :=
  existsb (Ascii.eqb c) ["["; "]"; ":"; "*"; "?"; "/"; "\"]%char.

Definition check_sheetname (sheetname : string) : Exception + unit :=
  if Nat.ltb 31 (String.length sheetname)
  then inl ("Excel worksheet name '" +:+ sheetname +:+ "' must be <= 31 chars.")
  else if existsb invalid_char (list_ascii_of_string sheetname)
       then inl ("Invalid Excel character '[]:*?/\' in sheetname '"
                 +:+ sheetname +:+ "'")
       else inr tt.

Definition xlsxwriter : Xlsxwriter := {| add_worksheet := check_sheetname |}.

(** A product with a name that fits, one with a name that does not, and
    the form that asks for a product. *)
Definition widget : names :=
  {| product_id_name := Some "Widget"; template_id_name := None |}.

Definition long_name : names :=
  {| product_id_name := Some "Stainless bolt M8"; template_id_name := None |}.

Definition by_product : Query.scope :=
  {| Query.stats_type := Query.location_demand;
     Query.stats_for := Query.product;
     Query.include_children := true |}.

End Xlsx.

(** * Properties *)

(** ** The calendar *)

Module CalendarFacts.
Import Calendar.

Lemma all_from_spec f n z :
  all_from f n z = true -> forall x, z <= x < z + Z.of_nat n -> f x = true.
Proof.
  revert z. induction n as [|n IH]; intros z H x Hx; [lia|].
  cbn [all_from] in H. apply andb_prop in H as [H0 H1].
  destruct (decide (x = z)) as [->|]; [done|].
  apply (IH (z + 1)); [done | lia].
Qed.

Ltac divmod := Z.to_euclidean_division_equations; lia.

(** The calendar repeats after 400 years, which are 146097 days. *)
Lemma month_first_period i k :
  month_first (i + 4800 * k) = month_first i + 146097 * k.
Proof.
  unfold month_first, date, ymd2ord, days_before_year, days_before_month, is_leap.
  replace ((i + 4800 * k) / 12) with (i / 12 + 400 * k) by divmod.
  replace ((i + 4800 * k) mod 12) with (i mod 12) by divmod.
  set (y := i / 12). set (m := i mod 12 + 1).
  replace ((y + 400 * k) mod 4) with (y mod 4) by divmod.
  replace ((y + 400 * k) mod 100) with (y mod 100) by divmod.
  replace ((y + 400 * k) mod 400) with (y mod 400) by divmod.
  cbv zeta. divmod.
Qed.

Lemma month_first_ok_era : all_from month_first_ok (Z.to_nat 4800) 0 = true.
Proof. vm_compute. reflexivity. Qed.

Lemma month_first_ok_all i : month_first_ok i = true.
Proof.
  pose proof (all_from_spec _ _ _ month_first_ok_era (i mod 4800)) as H.
  rewrite Z2Nat.id in H by lia.
  specialize (H ltac:(divmod)).
  unfold month_first_ok in *.
  replace i with (i mod 4800 + 4800 * (i / 4800)) at 1 2 3 4 5 6 by divmod.
  replace (i mod 4800 + 4800 * (i / 4800) + 1)
    with ((i mod 4800 + 1) + 4800 * (i / 4800)) by lia.
  rewrite !month_first_period.
  set (r := i mod 4800) in *. set (k := i / 4800).
  apply andb_prop in H as [H H3]. apply andb_prop in H as [H1 H2].
  apply andb_true_intro; split; [apply andb_true_intro; split|]; lia.
Qed.

Lemma month_first_step i : month_first i < month_first (i + 1).
Proof.
  pose proof (month_first_ok_all i) as H. unfold month_first_ok in H.
  apply andb_prop in H as [_ H]. lia.
Qed.

Lemma month_first_lt i j : i < j -> month_first i < month_first j.
Proof.
  intros Hij. replace j with (i + 1 + Z.of_nat (Z.to_nat (j - i - 1))) by lia.
  induction (Z.to_nat (j - i - 1)) as [|n IH].
  - rewrite Z.add_0_r. apply month_first_step.
  - pose proof (month_first_step (i + 1 + Z.of_nat n)).
    replace (i + 1 + Z.of_nat (S n)) with (i + 1 + Z.of_nat n + 1) by lia. lia.
Qed.

Lemma month_first_le i j : i <= j -> month_first i <= month_first j.
Proof.
  intros Hij. destruct (decide (i = j)) as [->|]; [lia|].
  apply Z.lt_le_incl, month_first_lt. lia.
Qed.

(** [month_index n] is the month that day [n] lies in. *)
Lemma month_index_spec n :
  month_first (month_index n) <= n < month_first (month_index n + 1).
Proof.
  unfold month_index. set (g := 4800 * (n + 719528) / 146097).
  assert (Hg : 146097 * g <= 4800 * (n + 719528) < 146097 * (g + 1))
    by (subst g; divmod).
  pose proof (month_first_ok_all (g - 1)) as Hl.
  pose proof (month_first_ok_all (g + 2)) as Hu.
  unfold month_first_ok in Hl, Hu.
  apply andb_prop in Hl as [Hl _]. apply andb_prop in Hl as [_ Hl].
  apply andb_prop in Hu as [Hu _]. apply andb_prop in Hu as [Hu _].
  replace (g + 2 - 1) with (g + 1) in Hu by lia.
  replace (g - 1 + 1) with g in Hl by lia.
  repeat case_match; try lia.
  - replace (g - 1 + 1) with g by lia. lia.
  - replace (g + 1 + 1) with (g + 2) by lia. lia.
Qed.

Lemma month_index_unique n i :
  month_first i <= n < month_first (i + 1) -> month_index n = i.
Proof.
  intros [H1 H2]. pose proof (month_index_spec n) as [S1 S2].
  destruct (Z.lt_trichotomy (month_index n) i) as [Hlt|[->|Hgt]]; [|done|].
  - pose proof (month_first_le (month_index n + 1) i). lia.
  - pose proof (month_first_le (i + 1) (month_index n)). lia.
Qed.

Lemma month_index_mono d d' : d <= d' -> month_index d <= month_index d'.
Proof.
  intros Hd. pose proof (month_index_spec d) as [S1 S2].
  pose proof (month_index_spec d') as [S1' S2'].
  destruct (Z.le_gt_cases (month_index d) (month_index d')) as [|Hgt]; [done|].
  pose proof (month_first_le (month_index d' + 1) (month_index d)). lia.
Qed.

Lemma month_last_lt i j : i < j -> month_last i < month_last j.
Proof.
  intros Hij. unfold month_last.
  pose proof (month_first_lt (i + 1) (j + 1)). lia.
Qed.

Lemma month_index_last i : month_index (month_last i) = i.
Proof.
  apply month_index_unique. unfold month_last.
  pose proof (month_first_step i). lia.
Qed.

Example dates_2024 :
  date 1970 1 1 = 0 /\ date 2024 1 1 = 19723 /\
  date 2024 2 29 + 1 = date 2024 3 1 /\ date 2023 2 28 + 1 = date 2023 3 1 /\
  month_index (date 2024 2 29) = 12 * 2024 + 1 /\
  month_last (12 * 2024 + 1) = date 2024 2 29.
Proof. by vm_compute. Qed.

End CalendarFacts.

(** ** The offsets *)

Lemma Day_laws : OffsetLaws Offsets.Day.
Proof. split; simpl; intros; lia. Qed.

Lemma Week_laws : OffsetLaws Offsets.Week.
Proof.
  split; simpl.
  - intros d d' H. apply Z.div_le_mono; lia.
  - intros; lia.
  - intros i. CalendarFacts.divmod.
Qed.

Lemma MonthEnd_laws : OffsetLaws Offsets.MonthEnd.
Proof.
  split; simpl.
  - apply CalendarFacts.month_index_mono.
  - apply CalendarFacts.month_last_lt.
  - apply CalendarFacts.month_index_last.
Qed.

Lemma QuarterEnd_laws : OffsetLaws Offsets.QuarterEnd.
Proof.
  split; simpl.
  - intros d d' H. apply Z.div_le_mono; [lia|].
    by apply CalendarFacts.month_index_mono.
  - intros i j H. apply CalendarFacts.month_last_lt. lia.
  - intros i. rewrite CalendarFacts.month_index_last. CalendarFacts.divmod.
Qed.

Lemma YearEnd_laws : OffsetLaws Offsets.YearEnd.
Proof.
  split; simpl.
  - intros d d' H. apply Z.div_le_mono; [lia|].
    by apply CalendarFacts.month_index_mono.
  - intros i j H. apply CalendarFacts.month_last_lt. lia.
  - intros i. rewrite CalendarFacts.month_index_last. CalendarFacts.divmod.
Qed.

Create HintDb offsets.
#[local] Hint Resolve Day_laws Week_laws MonthEnd_laws QuarterEnd_laws
  YearEnd_laws : offsets.

Lemma to_offset_laws freq : OffsetLaws (to_offset freq).
Proof. unfold to_offset. repeat case_match; auto with offsets. Qed.

(** Monday 2024-01-01 falls in the week labelled Sunday 2024-01-07, in the
    month labelled 2024-01-31, in the quarter labelled 2024-03-31 and in the
    year labelled 2024-12-31. *)
Example labels_of_2024_01_01 :
  let d := Calendar.date 2024 1 1 in
  let labelled freq := label (to_offset freq) (bin (to_offset freq) d) in
  labelled "d"%char = d /\
  labelled "w"%char = Calendar.date 2024 1 7 /\
  labelled "m"%char = Calendar.date 2024 1 31 /\
  labelled "q"%char = Calendar.date 2024 3 31 /\
  labelled "y"%char = Calendar.date 2024 12 31.
Proof. by vm_compute. Qed.

(** ** Resampling *)

Lemma seqZ_sorted lo n : StronglySorted Z.lt (seqZ lo n).
Proof.
  remember (Z.to_nat n) as k eqn:Hk. revert lo n Hk.
  induction k as [|k IH]; intros lo n Hk.
  - rewrite seqZ_nil by lia. constructor.
  - rewrite seqZ_cons by lia. constructor.
    + apply IH. lia.
    + apply Forall_forall. intros x Hx%elem_of_seqZ. lia.
Qed.

Lemma fold_min_le b bs x : x ∈ b :: bs -> fold_right Z.min b bs <= x.
Proof.
  induction bs as [|a bs IH]; simpl; intros H.
  - apply list_elem_of_singleton in H. lia.
  - assert (x = a \/ x ∈ b :: bs) as [->|H'] by set_solver; [lia|].
    specialize (IH H'). lia.
Qed.

Lemma fold_min_elem b bs : fold_right Z.min b bs ∈ b :: bs.
Proof.
  induction bs as [|a bs IH]; simpl; [set_solver|].
  destruct (Z.min_spec a (fold_right Z.min b bs)) as [[_ ->]|[_ ->]]; set_solver.
Qed.

Lemma fold_max_ge b bs x : x ∈ b :: bs -> x <= fold_right Z.max b bs.
Proof.
  induction bs as [|a bs IH]; simpl; intros H.
  - apply list_elem_of_singleton in H. lia.
  - assert (x = a \/ x ∈ b :: bs) as [->|H'] by set_solver; [lia|].
    specialize (IH H'). lia.
Qed.

Lemma fold_max_elem b bs : fold_right Z.max b bs ∈ b :: bs.
Proof.
  induction bs as [|a bs IH]; simpl; [set_solver|].
  destruct (Z.max_spec a (fold_right Z.max b bs)) as [[_ ->]|[_ ->]]; set_solver.
Qed.

(** The resampled frame, row by row: the bins [lo .. hi] spanned by the
    rows, each with its label and the sum of what falls in it. *)
Lemma resample_sum_spec freq rows :
  rows <> [] ->
  let o := to_offset freq in
  exists lo hi,
    (exists r, r ∈ rows /\ bin o r.1 = lo) /\
    (exists r, r ∈ rows /\ bin o r.1 = hi) /\
    (forall r, r ∈ rows -> lo <= bin o r.1 <= hi) /\
    df_qty (resample_sum freq rows)
    = (fun i => (label o i, Qsum (in_bin o i rows).*2)) <$> seqZ lo (hi - lo + 1).
Proof.
  intros Hne o. unfold resample_sum. fold o.
  change (map (fun r => bin o r.1) rows) with ((fun r : Z * Q => bin o r.1) <$> rows).
  destruct ((fun r : Z * Q => bin o r.1) <$> rows) as [|b bs] eqn:E.
  { by apply fmap_nil_inv in E. }
  exists (fold_right Z.min b bs), (fold_right Z.max b bs).
  assert (Hmem : forall x, x ∈ b :: bs <-> exists r, r ∈ rows /\ bin o r.1 = x).
  { intros x. rewrite <- E, list_elem_of_fmap. naive_solver. }
  repeat split.
  - apply Hmem, fold_min_elem.
  - apply Hmem, fold_max_elem.
  - apply fold_min_le, Hmem. eauto.
  - apply fold_max_ge, Hmem. eauto.
Qed.

Lemma resample_sum_freq freq rows : df_freq (resample_sum freq rows) = freq.
Proof. unfold resample_sum. by case_match. Qed.

Lemma resample_sum_nonempty freq rows :
  rows <> [] -> df_qty (resample_sum freq rows) <> [].
Proof.
  intros Hne.
  destruct (resample_sum_spec freq rows Hne) as (lo & hi & [r [Hr Hlo]] & _ & Hb & ->).
  specialize (Hb r Hr). rewrite seqZ_cons by lia. done.
Qed.

Lemma position_date_lt data p p' :
  p < p' -> position_date data p < position_date data p'.
Proof.
  intros H. unfold position_date.
  pose proof (to_offset_laws (df_freq data)) as L.
  destruct (df_qty data) as [|[d0 q0] ?]; apply (label_lt _ L); lia.
Qed.

(** The index of a resampled frame is its positions [0 .. len - 1]. *)
Lemma resample_sum_index freq rows :
  rows <> [] ->
  let data := resample_sum freq rows in
  (df_qty data).*1 = position_date data <$> seqZ 0 (len data).
Proof.
  intros Hne data.
  destruct (resample_sum_spec freq rows Hne) as (lo & hi & [r [Hr Hlo]] & _ & Hb & E).
  specialize (Hb r Hr). subst data. set (n := hi - lo + 1) in *.
  assert (Hs : seqZ lo n = lo :: seqZ (Z.succ lo) (Z.pred n))
    by (apply seqZ_cons; lia).
  assert (Hpos : forall p,
    position_date (resample_sum freq rows) p = label (to_offset freq) (lo + p)).
  { intros p. unfold position_date. rewrite resample_sum_freq, E, Hs. simpl.
    by rewrite (bin_label _ (to_offset_laws freq)). }
  assert (Hlen : len (resample_sum freq rows) = n).
  { unfold len. rewrite E, length_fmap, length_seqZ. lia. }
  assert (Hseq : seqZ lo n = Z.add lo <$> seqZ 0 n)
    by (rewrite fmap_add_seqZ; f_equal; lia).
  rewrite Hlen, E, <- list_fmap_compose, Hseq, <- list_fmap_compose.
  apply list_fmap_ext. intros _ p _. simpl. by rewrite Hpos.
Qed.

Lemma position_dates_sorted data a n :
  StronglySorted Z.lt (position_date data <$> seqZ a n).
Proof.
  eapply StronglySorted_fmap; [|apply seqZ_sorted].
  intros x y. apply position_date_lt.
Qed.

Lemma position_dates_NoDup data a n : NoDup (position_date data <$> seqZ a n).
Proof.
  apply NoDup_fmap_2; [|apply NoDup_seqZ].
  intros x y H. destruct (Z.lt_trichotomy x y) as [Hlt|[->|Hgt]]; [|done|].
  - pose proof (position_date_lt data x y Hlt). lia.
  - pose proof (position_date_lt data y x Hgt). lia.
Qed.

(** ** [to_dict] *)

Lemma dict_set_fresh k v d : k ∉ d.*1 -> dict_set k v d = d ++ [(k, v)].
Proof.
  induction d as [|[k' v'] d IH]; simpl; intros H; [done|].
  case_decide; [set_solver|]. f_equal. apply IH. set_solver.
Qed.

Lemma fold_dict_set_fresh s acc :
  NoDup (acc ++ s).*1 ->
  fold_left (fun d kv => dict_set kv.1 kv.2 d) s acc = acc ++ s.
Proof.
  revert acc. induction s as [|[k v] s IH]; intros acc H; simpl.
  - by rewrite app_nil_r.
  - rewrite dict_set_fresh.
    + rewrite IH; rewrite <- app_assoc; done.
    + rewrite fmap_app in H. apply NoDup_app in H as (_ & H & _).
      intros Hk. apply (H k Hk). set_solver.
Qed.

(** A series whose index has no duplicate is its own [dict]. *)
Lemma to_dict_NoDup s : NoDup s.*1 -> to_dict s = s.
Proof. intros H. unfold to_dict. by rewrite fold_dict_set_fresh. Qed.

Lemma elem_of_dict_set kv k v d : kv ∈ dict_set k v d -> kv = (k, v) \/ kv ∈ d.
Proof.
  induction d as [|[k' v'] d IH]; simpl; [set_solver|].
  case_decide; set_solver.
Qed.

Lemma elem_of_fold_dict_set kv s acc :
  kv ∈ fold_left (fun d kv => dict_set kv.1 kv.2 d) s acc -> kv ∈ acc \/ kv ∈ s.
Proof.
  revert acc. induction s as [|[k v] s IH]; intros acc H; simpl in *; [by left|].
  apply IH in H as [H|H]; [|set_solver].
  apply elem_of_dict_set in H. set_solver.
Qed.

(** Every item of the [dict] is a point of the series. *)
Lemma elem_of_to_dict kv s : kv ∈ to_dict s -> kv ∈ s.
Proof. intros H. apply elem_of_fold_dict_set in H. set_solver. Qed.

(** ** The boundary buckets and the normalized frame *)

Lemma add_date_start_cases self moves :
  add_date_start self moves = moves \/
  exists ds, date_start self = Some ds /\
             add_date_start self moves = moves ++ [(ds, 0%Q)].
Proof. unfold add_date_start. repeat case_match; eauto. Qed.

Lemma add_date_end_cases self moves :
  add_date_end self moves = moves \/
  exists de, date_end self = Some de /\
             add_date_end self moves = moves ++ [(de, 0%Q)].
Proof. unfold add_date_end. repeat case_match; eauto. Qed.

(** What is resampled: the rows of the query, then the synthetic buckets,
    which all carry quantity zero. *)
Lemma boundaries_spec self moves :
  exists synth,
    add_date_end self (add_date_start self moves) = moves ++ synth /\
    Forall (fun r => r.2 = 0%Q) synth.
Proof.
  destruct (add_date_start_cases self moves) as [->|(ds & _ & ->)];
    [destruct (add_date_end_cases self moves) as [->|(de & _ & ->)]
    |destruct (add_date_end_cases self (moves ++ [(ds, 0%Q)])) as [->|(de & _ & ->)]].
  - exists []. by rewrite app_nil_r.
  - exists [(de, 0%Q)]. split; [done|]. by repeat constructor.
  - exists [(ds, 0%Q)]. split; [done|]. by repeat constructor.
  - exists [(ds, 0%Q); (de, 0%Q)]. rewrite <- app_assoc. split; [done|].
    by repeat constructor.
Qed.

Lemma boundaries_nonempty self moves :
  moves <> [] -> add_date_end self (add_date_start self moves) <> [].
Proof.
  intros H. destruct (boundaries_spec self moves) as (synth & -> & _).
  by destruct moves.
Qed.

Lemma normalize_nonempty self moves :
  moves <> [] -> df_qty (normalize self moves) <> [].
Proof.
  intros H. unfold normalize, fillna.
  by apply resample_sum_nonempty, boundaries_nonempty.
Qed.

Lemma normalize_index self moves :
  moves <> [] ->
  (df_qty (normalize self moves)).*1
  = position_date (normalize self moves) <$> seqZ 0 (len (normalize self moves)).
Proof.
  intros H. unfold normalize, fillna.
  by apply resample_sum_index, boundaries_nonempty.
Qed.

Lemma normalize_to_dict self moves :
  moves <> [] ->
  to_dict (df_qty (normalize self moves)) = df_qty (normalize self moves).
Proof.
  intros H. apply to_dict_NoDup. rewrite normalize_index by done.
  apply position_dates_NoDup.
Qed.

(** ** The forecast methods *)

Section Methods.

Context (sm : Statsmodels) (Hsm : predict_index sm).

Lemma predicted_index data (body : Exception + results sm data)
    (pp : Z) typ f log :
  try_predict (model_fit <- body ;;
               predict sm model_fit (len data) (len data + pp - 1) typ)
  = (Predicted f, log) ->
  f.*1 = position_date data <$> seqZ (len data) pp /\ log = [].
Proof.
  destruct body as [er|r]; cbn [bind_exn]; [done|].
  destruct (predict sm r _ _ typ) as [er|f'] eqn:E; simpl; [done|].
  intros [= <- <-]. split; [|done].
  rewrite (Hsm _ _ _ _ _ _ E). do 2 f_equal. lia.
Qed.

(** Every method, [_hwes_method] and [_ses_method] included, asks for
    the positions [len(data) .. len(data) + predicted_periods - 1]. *)
Lemma method_to_call_index self data f log :
  method_to_call sm self data = (Predicted f, log) ->
  f.*1 = position_date data <$> seqZ (len data) (predicted_periods self) /\
  log = [].
Proof.
  unfold method_to_call, _ar_method, _ma_method, _arima_method, _sarima_method,
    _hwes_method, _ses_method.
  destruct (forecast_method self);
    match goal with
    | |- context [bind_exn ?c _] => destruct c as [er|m]; cbn [bind_exn]; [done|]
    end; apply predicted_index.
Qed.

Lemma method_to_call_length self data f log :
  method_to_call sm self data = (Predicted f, log) ->
  length f = Z.to_nat (predicted_periods self).
Proof.
  intros [H _]%method_to_call_index.
  apply (f_equal length) in H.
  by rewrite !length_fmap, length_seqZ in H.
Qed.

End Methods.

Lemma Naive_predict_index : predict_index Naive.statsmodels.
Proof.
  intros data level start end_ typ f. simpl. unfold Naive.forecast_at.
  case_match; [done|]. intros [= <-]. by rewrite <- list_fmap_compose.
Qed.

(** ** The length and the place of a forecast *)

Lemma _hwes_method_length sm self data f log :
  predict_index sm ->
  _hwes_method sm self data = (Predicted f, log) ->
  length f = Z.to_nat (predicted_periods self).
Proof.
  intros Hsm. unfold _hwes_method.
  destruct (ExponentialSmoothing sm) as [er|m]; cbn [bind_exn]; [done|].
  intros [H _]%predicted_index; [|done].
  apply (f_equal length) in H. by rewrite !length_fmap, length_seqZ in H.
Qed.

Lemma _ses_method_length sm self data f log :
  predict_index sm ->
  _ses_method sm self data = (Predicted f, log) ->
  length f = Z.to_nat (predicted_periods self).
Proof.
  intros Hsm. unfold _ses_method.
  destruct (SimpleExpSmoothing sm) as [er|m]; cbn [bind_exn]; [done|].
  intros [H _]%predicted_index; [|done].
  apply (f_equal length) in H. by rewrite !length_fmap, length_seqZ in H.
Qed.

(** The scenario's series, normalized to 2024-01-01 .. 2024-01-03, and
    three periods asked of [_hwes_method]: the call is
    [predict(start=3, end=5)], and the answer has the three days that
    follow. *)
Example hwes_on_scenario :
  let self := Scenario.request hwes_method 3 in
  normalize self Scenario.raw
  = {| df_freq := "d";
       df_qty := [(19723, 5%Q); (19724, 0%Q); (19725, 7%Q)] |} /\
  _hwes_method Naive.statsmodels self (normalize self Scenario.raw)
  = (Predicted [(19726, 7%Q); (19727, 7%Q); (19728, 7%Q)], []).
Proof. by vm_compute. Qed.

(** C1, as stated, fails: [_hwes_method] asked for three periods on the
    scenario's series returns three points, not one. *)
Lemma hwes_three_periods :
  ~ (forall sm self moves f log,
       predict_index sm ->
       _hwes_method sm self (normalize self moves) = (Predicted f, log) ->
       length f = 1%nat).
Proof.
  intros H.
  specialize (H Naive.statsmodels (Scenario.request hwes_method 3) Scenario.raw
                [(19726, 7%Q); (19727, 7%Q); (19728, 7%Q)] []
                Naive_predict_index).
  by specialize (H eq_refl).
Qed.

(** C1, amended: [_hwes_method] and [_ses_method] do not cap the horizon;
    when they return a forecast it has [predicted_periods] points.  The
    cap is the request layer's: [_onchange_forecast_method] sets
    [predicted_periods] to 1 when one of the two methods is chosen, and
    with that value the chosen method returns exactly one point. *)
Theorem hwes_ses_forecast_points sm self data f log :
  predict_index sm ->
  (_hwes_method sm self data = (Predicted f, log) \/
   _ses_method sm self data = (Predicted f, log) ->
   length f = Z.to_nat (predicted_periods self)) /\
  (forall param,
     forecast_method self = hwes_method \/ forecast_method self = ses_method ->
     predicted_periods (_onchange_forecast_method param self) = 1 /\
     (method_to_call sm (_onchange_forecast_method param self) data
      = (Predicted f, log) ->
      length f = 1%nat)).
Proof.
  intros Hsm. split.
  - intros [H|H]; eauto using _hwes_method_length, _ses_method_length.
  - intros param Hm.
    assert (Hpp : predicted_periods (_onchange_forecast_method param self) = 1).
    { unfold _onchange_forecast_method. by destruct Hm as [-> | ->]. }
    split; [done|]. intros H%method_to_call_length; [|done].
    by rewrite H, Hpp.
Qed.

Lemma hwes_ses_forecast_points_witness :
  let self := Scenario.request hwes_method 3 in
  let data := normalize self Scenario.raw in
  length [(19726, 7%Q); (19727, 7%Q); (19728, 7%Q)] = 3%nat /\
  predicted_periods (_onchange_forecast_method 3 self) = 1 /\
  (method_to_call Naive.statsmodels (_onchange_forecast_method 3 self) data
   = (Predicted [(19726, 7%Q)], []) ->
   length [(19726, 7%Q)] = 1%nat).
Proof.
  intros self data.
  destruct (hwes_ses_forecast_points Naive.statsmodels self data
              [(19726, 7%Q); (19727, 7%Q); (19728, 7%Q)] []
              Naive_predict_index) as [H _].
  destruct (hwes_ses_forecast_points Naive.statsmodels self data
              [(19726, 7%Q)] [] Naive_predict_index) as [_ H'].
  split; [apply H; left; reflexivity|].
  apply H'. left. reflexivity.
Defined.

(** C2, as stated, fails on its exception: [_ses_method] asked for two
    periods returns two points, not one. *)
Lemma ses_two_periods :
  ~ (forall sm self moves f log,
       predict_index sm ->
       method_to_call sm self (normalize self moves) = (Predicted f, log) ->
       match forecast_method self with
       | hwes_method | ses_method => length f = 1%nat
       | _ => Z.of_nat (length f) = predicted_periods self
       end).
Proof.
  intros H.
  specialize (H Naive.statsmodels (Scenario.request ses_method 2) Scenario.raw
                [(19726, 7%Q); (19727, 7%Q)] [] Naive_predict_index).
  by specialize (H eq_refl).
Qed.

(** C2, amended: whatever the method, [_hwes_method] and [_ses_method]
    included, a forecast of the normalized series has [predicted_periods]
    points, at the positions [n .. n + predicted_periods - 1] that follow the
    [n] positions of the input. *)
Theorem forecast_follows_input sm self moves f log :
  predict_index sm ->
  predicted_periods_check self ->
  moves <> [] ->
  let data := normalize self moves in
  method_to_call sm self data = (Predicted f, log) ->
  Z.of_nat (length f) = predicted_periods self /\
  f.*1 = position_date data <$> seqZ (len data) (predicted_periods self) /\
  (df_qty data).*1 ++ f.*1
  = position_date data <$> seqZ 0 (len data + predicted_periods self).
Proof.
  intros Hsm Hpp Hne data H. unfold predicted_periods_check in Hpp.
  pose proof (method_to_call_length sm Hsm _ _ _ _ H) as Hlen.
  apply method_to_call_index in H as [Hf _]; [|done].
  split; [lia|]. split; [done|].
  subst data. rewrite Hf, normalize_index by done.
  rewrite seqZ_app, fmap_app by (unfold len; lia). done.
Qed.

Lemma forecast_follows_input_witness :
  let self := Scenario.unbounded (Scenario.request arima_method 2) in
  let data := normalize self Scenario.daily in
  let f := [(19731, 8%Q); (19732, 8%Q)] in
  Z.of_nat (length f) = 2 /\
  f.*1 = position_date data <$> seqZ (len data) 2 /\
  (df_qty data).*1 ++ f.*1 = position_date data <$> seqZ 0 (len data + 2).
Proof.
  intros self data f.
  apply (forecast_follows_input Naive.statsmodels self _ f []).
  - exact Naive_predict_index.
  - unfold predicted_periods_check. simpl. lia.
  - discriminate.
  - vm_compute. reflexivity.
Defined.

(** ** No data, and failure of a method *)

Lemma calculate_data_nonempty sm self moves :
  moves <> [] ->
  forall forecast log,
    method_to_call sm self (normalize self moves) = (forecast, log) ->
    _calculate_data sm self moves
    = (Moves (map history_move (df_qty (normalize self moves))
              ++ match forecast with
                 | Predicted prediction => map forecast_move (to_dict prediction)
                 | Unavailable => []
                 end), log).
Proof.
  intros Hne forecast log H. unfold _calculate_data.
  destruct moves as [|first rest]; [done|].
  rewrite H, normalize_to_dict by done.
  destruct forecast; [by rewrite app_nil_r | done].
Qed.

(** C3: [_calculate_data] answers [False] exactly when the query returned
    no row.  Then nothing is logged and the answer is the same whatever
    statsmodels is: no method runs, and [action_calculate] answers with the
    notification.  So does the export once its sheet is created; when
    xlsxwriter refuses the sheet, which comes first, the export raises that
    error instead.  On any row at all, the answer is assembled from the
    normalized frame and from what the selected method returns on it. *)
Theorem no_data_iff_no_rows sm self moves :
  ((_calculate_data sm self moves).1 = NoData <-> moves = []) /\
  (moves = [] ->
   _calculate_data sm self moves = (NoData, []) /\
   action_calculate sm self moves
   = (display_notification NODATATITLE NODATAWARNING false, []) /\
   forall xw today sc nm,
     action_export_to_xlsx xw sm today sc nm self moves
     = match add_worksheet xw (xlsx_name sc nm today) with
       | inl er => inl er
       | inr _ => inr (display_notification NODATATITLE NODATAWARNING false, [])
       end) /\
  (moves <> [] ->
   let moves_table := normalize self moves in
   let forecast := (method_to_call sm self moves_table).1 in
   let log := (method_to_call sm self moves_table).2 in
   _calculate_data sm self moves
   = (Moves (map history_move (df_qty moves_table)
             ++ match forecast with
                | Predicted prediction => map forecast_move (to_dict prediction)
                | Unavailable => []
                end), log)).
Proof.
  assert (Hrun : moves <> [] ->
    _calculate_data sm self moves
    = (Moves (map history_move (df_qty (normalize self moves))
              ++ match (method_to_call sm self (normalize self moves)).1 with
                 | Predicted prediction => map forecast_move (to_dict prediction)
                 | Unavailable => []
                 end), (method_to_call sm self (normalize self moves)).2)).
  { intros Hne. apply calculate_data_nonempty; [done|].
    by destruct (method_to_call sm self (normalize self moves)). }
  split; [split|split].
  - intros H. destruct moves as [|first rest]; [done|].
    rewrite Hrun in H by done. done.
  - by intros ->.
  - intros ->. split; [done|]. split; [done|].
    intros xw today sc nm. unfold action_export_to_xlsx.
    by destruct (add_worksheet xw (xlsx_name sc nm today)).
  - done.
Qed.

Lemma no_data_iff_no_rows_witness :
  action_calculate Naive.statsmodels (Scenario.request ar_method 1) []
  = (display_notification NODATATITLE NODATAWARNING false, []) /\
  (_calculate_data Naive.statsmodels (Scenario.request ar_method 1) Scenario.raw).1
  <> NoData.
Proof.
  split.
  - by apply (no_data_iff_no_rows Naive.statsmodels (Scenario.request ar_method 1) []).
  - intros H.
    by apply (no_data_iff_no_rows Naive.statsmodels (Scenario.request ar_method 1)
                Scenario.raw) in H.
Defined.

Lemma raises_unavailable sm self data er :
  raises sm self data er ->
  method_to_call sm self data = (Unavailable, [warning er]).
Proof.
  unfold method_to_call, _ar_method, _ma_method, _arima_method, _sarima_method,
    _hwes_method, _ses_method.
  intros [H|m H Hfit|m model_fit H Hfit Hpredict];
    unfold model_of, typ_of in *; destruct (forecast_method self);
    rewrite H; cbn [bind_exn]; try done;
    rewrite Hfit; cbn [bind_exn]; try done;
    by rewrite Hpredict.
Qed.

(** A method always returns: [False] with one warning when a stage raises,
    the prediction with nothing logged otherwise. *)
Lemma method_to_call_total sm self data :
  (exists er, raises sm self data er /\
              method_to_call sm self data = (Unavailable, [warning er])) \/
  (exists f, method_to_call sm self data = (Predicted f, [])).
Proof.
  destruct (model_of sm self data) as [er|m] eqn:Hm.
  { left. exists er. split; [by apply raises_model|].
    by apply raises_unavailable, raises_model. }
  destruct (fit sm m) as [er|model_fit] eqn:Hfit.
  { left. exists er. split; [by eapply raises_fit|].
    by eapply raises_unavailable, raises_fit. }
  destruct (predict sm model_fit (len data)
              (len data + predicted_periods self - 1) (typ_of self))
    as [er|f] eqn:Hpredict.
  { left. exists er. split; [by eapply raises_predict|].
    by eapply raises_unavailable, raises_predict. }
  right. exists f.
  unfold method_to_call, _ar_method, _ma_method, _arima_method, _sarima_method,
    _hwes_method, _ses_method.
  unfold model_of, typ_of in *; destruct (forecast_method self);
    rewrite Hm; cbn [bind_exn]; rewrite Hfit; cbn [bind_exn];
    by rewrite Hpredict.
Qed.

(** C4: a method never lets an exception through.  When constructing,
    fitting or predicting raises, it returns [False] and its only trace is
    one record of the log, of level [WARNING], whose text ends with the
    error; [_calculate_data] then returns the history alone, no record of it
    carrying the forecast flag, and the log holds that one warning. *)
Theorem failure_gives_history_only sm self data :
  ((exists er, raises sm self data er /\
      method_to_call sm self data
      = (Unavailable,
         [(WARNING,
           "The data is not sufficient to make prediction. Error: " +:+ er)])) \/
   (exists f, method_to_call sm self data = (Predicted f, []))) /\
  forall er,
    raises sm self data er ->
    method_to_call sm self data
    = (Unavailable,
       [(WARNING,
         "The data is not sufficient to make prediction. Error: " +:+ er)]) /\
    forall moves,
      moves <> [] -> data = normalize self moves ->
      _calculate_data sm self moves
      = (Moves (map history_move (df_qty data)),
         [(WARNING,
           "The data is not sufficient to make prediction. Error: " +:+ er)]) /\
      forall r, r ∈ map history_move (df_qty data) -> r !! "forecast" = None.
Proof.
  split; [exact (method_to_call_total sm self data)|].
  intros er Hr%raises_unavailable. split; [done|].
  intros moves Hne ->. split.
  - rewrite (calculate_data_nonempty sm self moves Hne _ _ Hr).
    by rewrite app_nil_r.
  - intros r (kv & -> & _)%list_elem_of_fmap. done.
Qed.

Lemma failure_gives_history_only_witness :
  let self := Scenario.request arima_method 1 in
  _calculate_data Naive.statsmodels self Scenario.raw
  = (Moves (map history_move [(19723, 5%Q); (19724, 0%Q); (19725, 7%Q)]),
     [(WARNING,
       "The data is not sufficient to make prediction. Error: insufficient observations")]).
Proof.
  intros self.
  destruct (failure_gives_history_only Naive.statsmodels self
              (normalize self Scenario.raw)) as [_ H].
  destruct (H "insufficient observations") as [_ H'].
  - apply raises_model. vm_compute. reflexivity.
  - by destruct (H' Scenario.raw) as [-> _].
Defined.

(** ** Clamping and rounding *)

Lemma Qltb_lt x y : Qltb x y = true <-> (x < y)%Q.
Proof.
  unfold Qltb. rewrite negb_true_iff, <- not_true_iff_false, Qle_bool_iff.
  split; [apply Qnot_le_lt | apply Qlt_not_le].
Qed.

Lemma Qltb_ge x y : Qltb x y = false <-> (y <= x)%Q.
Proof. unfold Qltb. by rewrite negb_false_iff, Qle_bool_iff. Qed.

(** [round_half_even x] is within one half of [x]. *)
Lemma round_half_even_nearest x :
  let k := round_half_even x in
  (2 * k - 1) * Z.pos (Qden x) <= 2 * Qnum x <= (2 * k + 1) * Z.pos (Qden x).
Proof.
  unfold round_half_even.
  pose proof (Z.div_mod (Qnum x) (Z.pos (Qden x)) ltac:(done)) as E.
  pose proof (Z.mod_pos_bound (Qnum x) (Z.pos (Qden x)) ltac:(done)) as B.
  set (d := Z.pos (Qden x)) in *. set (n := Qnum x) in *.
  set (fl := n / d) in *. set (r := n mod d) in *.
  repeat case_match; nia.
Qed.

Lemma round_half_even_nonneg x : (0 <= x)%Q -> 0 <= round_half_even x.
Proof.
  intros H. unfold Qle in H. simpl in H. rewrite Z.mul_1_r in H.
  unfold round_half_even.
  assert (0 <= Qnum x / Z.pos (Qden x)) by (apply Z.div_pos; lia).
  repeat case_match; lia.
Qed.

Lemma py_round_2 v : py_round v 2 = round_half_even (v * 100) # 100.
Proof. reflexivity. Qed.

(** [round(value, 2)] is the multiple of 0.01 nearest to [value]. *)
Lemma py_round_2_nearest v :
  exists k, py_round v 2 = k # 100 /\ (2 * k - 1 # 200 <= v <= 2 * k + 1 # 200)%Q.
Proof.
  exists (round_half_even (v * 100)). split; [apply py_round_2|].
  pose proof (round_half_even_nearest (v * 100)) as H. simpl in H.
  rewrite Pos.mul_1_r in H. unfold Qle. simpl. lia.
Qed.

Lemma py_round_2_nonneg v : (0 <= v)%Q -> (0 <= py_round v 2)%Q.
Proof.
  intros H. rewrite py_round_2.
  assert (0 <= round_half_even (v * 100)).
  { apply round_half_even_nonneg. unfold Qle in *. simpl in *. lia. }
  unfold Qle. simpl. lia.
Qed.

(** [value > 0 and round(value, 2) or 0.0]. *)
Lemma clamp_round_spec value :
  let q := and_or (Qltb 0 value) (py_round value 2) 0 in
  (0 <= q)%Q /\
  ((value <= 0)%Q -> q = 0%Q) /\
  ((0 < value)%Q -> (q == py_round value 2)%Q) /\
  exists k, (q == k # 100)%Q.
Proof.
  unfold and_or.
  destruct (Qltb 0 value) eqn:Hv; simpl.
  - apply Qltb_lt in Hv.
    destruct (Qeq_bool (py_round value 2) 0) eqn:Hz; simpl.
    + apply Qeq_bool_eq in Hz. split; [apply Qle_refl|].
      split; [intros Hle; by apply Qlt_not_le in Hv|].
      split; [intros _; by symmetry|]. by exists 0.
    + split; [apply py_round_2_nonneg; by apply Qlt_le_weak|].
      split; [intros Hle; by apply Qlt_not_le in Hv|].
      split; [intros _; reflexivity|].
      exists (round_half_even (value * 100)). by rewrite py_round_2.
  - apply Qltb_ge in Hv. split; [apply Qle_refl|].
    split; [done|].
    split; [intros Hlt; by apply Qlt_not_le in Hlt|]. by exists 0.
Qed.

(** ** The records of the result *)

Lemma history_move_lookup kv :
  history_move kv !! "date_datetime" = Some (PyDate kv.1) /\
  history_move kv !! "quantity" = Some (PyFloat kv.2) /\
  history_move kv !! "forecast" = None.
Proof. done. Qed.

Lemma forecast_move_lookup kv :
  forecast_move kv !! "date_datetime" = Some (PyDate kv.1) /\
  forecast_move kv !! "quantity"
  = Some (PyFloat (and_or (Qltb 0 kv.2) (py_round kv.2 2) 0)) /\
  forecast_move kv !! "forecast" = Some (PyBool true).
Proof. done. Qed.

(** What a run that returns records is made of. *)
Lemma calculate_data_moves sm self moves res_moves log :
  _calculate_data sm self moves = (Moves res_moves, log) ->
  moves <> [] /\
  exists forecast,
    method_to_call sm self (normalize self moves) = (forecast, log) /\
    res_moves
    = map history_move (df_qty (normalize self moves))
      ++ match forecast with
         | Predicted prediction => map forecast_move (to_dict prediction)
         | Unavailable => []
         end.
Proof.
  intros H. destruct moves as [|first rest]; [done|]. split; [done|].
  destruct (method_to_call sm self (normalize self (first :: rest)))
    as [forecast log'] eqn:E.
  rewrite (calculate_data_nonempty sm self (first :: rest) ltac:(done) _ _ E) in H.
  injection H as <- <-. eauto.
Qed.

(** C5: a record that carries the forecast flag holds a point
    [(key, value)] of the prediction, with the quantity [0.0] when
    [value <= 0] and [round(value, 2)] otherwise: never negative, and a
    multiple of 0.01, the nearest to [value]. *)
Theorem forecast_quantity_clamped_rounded sm self moves res_moves log r :
  _calculate_data sm self moves = (Moves res_moves, log) ->
  r ∈ res_moves ->
  r !! "forecast" = Some (PyBool true) ->
  exists prediction key value q,
    (method_to_call sm self (normalize self moves)).1 = Predicted prediction /\
    (key, value) ∈ prediction /\
    r !! "date_datetime" = Some (PyDate key) /\
    r !! "quantity" = Some (PyFloat q) /\
    (0 <= q)%Q /\
    ((value <= 0)%Q -> q = 0%Q) /\
    ((0 < value)%Q -> (q == py_round value 2)%Q) /\
    (exists k, (q == k # 100)%Q) /\
    (exists k, py_round value 2 = k # 100 /\
               (2 * k - 1 # 200 <= value <= 2 * k + 1 # 200)%Q).
Proof.
  intros (Hne & forecast & Hcall & ->)%calculate_data_moves Hr Hflag.
  apply elem_of_app in Hr as [Hr|Hr].
  { change (r ∈ history_move <$> df_qty (normalize self moves)) in Hr.
    apply list_elem_of_fmap in Hr as (kv & -> & _).
    by rewrite (proj2 (proj2 (history_move_lookup kv))) in Hflag. }
  destruct forecast as [|prediction]; [by apply elem_of_nil in Hr|].
  change (r ∈ forecast_move <$> to_dict prediction) in Hr.
  apply list_elem_of_fmap in Hr as ([key value] & -> & Hkv%elem_of_to_dict).
  destruct (forecast_move_lookup (key, value)) as (Hd & Hq & _).
  destruct (clamp_round_spec value) as (H0 & Hle & Hlt & Hk).
  exists prediction, key, value, (and_or (Qltb 0 value) (py_round value 2) 0).
  rewrite Hcall. do 8 (split; [done|]). apply py_round_2_nearest.
Qed.

Lemma forecast_quantity_clamped_rounded_witness :
  exists prediction key value q,
    (method_to_call Naive.statsmodels (Scenario.request hwes_method 1)
       (normalize (Scenario.request hwes_method 1) Scenario.raw)).1
    = Predicted prediction /\
    (key, value) ∈ prediction /\
    forecast_move (19726, 7%Q) !! "date_datetime" = Some (PyDate key) /\
    forecast_move (19726, 7%Q) !! "quantity" = Some (PyFloat q) /\
    (0 <= q)%Q /\
    ((value <= 0)%Q -> q = 0%Q) /\
    ((0 < value)%Q -> (q == py_round value 2)%Q) /\
    (exists k, (q == k # 100)%Q) /\
    (exists k, py_round value 2 = k # 100 /\
               (2 * k - 1 # 200 <= value <= 2 * k + 1 # 200)%Q).
Proof.
  apply (forecast_quantity_clamped_rounded Naive.statsmodels
           (Scenario.request hwes_method 1) Scenario.raw
           (map history_move [(19723, 5%Q); (19724, 0%Q); (19725, 7%Q)]
            ++ [forecast_move (19726, 7%Q)]) []).
  - vm_compute. reflexivity.
  - apply elem_of_app. right. apply list_elem_of_singleton. reflexivity.
  - reflexivity.
Defined.

(** ** The normalized series *)

Lemma resample_sum_position freq rows :
  rows <> [] ->
  exists lo, forall p,
    position_date (resample_sum freq rows) p = label (to_offset freq) (lo + p).
Proof.
  intros Hne.
  destruct (resample_sum_spec freq rows Hne) as (lo & hi & [r [Hr Hlo]] & _ & Hb & E).
  specialize (Hb r Hr). exists lo. intros p.
  unfold position_date. rewrite resample_sum_freq, E, seqZ_cons by lia. simpl.
  by rewrite (bin_label _ (to_offset_laws freq)).
Qed.

Lemma Qsum_zeros l : Forall (fun x => x = 0%Q) l -> Qsum l = 0%Q.
Proof.
  unfold Qsum. induction 1 as [|x l -> _ IH]; [done|]. simpl. exact IH.
Qed.

Lemma fold_left_Qplus l a : (fold_left Qplus l a == a + Qsum l)%Q.
Proof.
  unfold Qsum. revert a. induction l as [|x l IH]; intros a; simpl.
  - by rewrite Qplus_0_r.
  - rewrite (IH (a + x)%Q), (IH (0 + x)%Q), Qplus_0_l. by rewrite Qplus_assoc.
Qed.

Lemma Qsum_app_zeros l z :
  Forall (fun x => x = 0%Q) z -> (Qsum (l ++ z) == Qsum l)%Q.
Proof.
  intros Hz. unfold Qsum at 1. rewrite fold_left_app.
  rewrite fold_left_Qplus, (Qsum_zeros z Hz). by rewrite Qplus_0_r.
Qed.

Lemma in_bin_zeros o b synth :
  Forall (fun r => r.2 = 0%Q) synth ->
  Forall (fun x => x = 0%Q) (in_bin o b synth).*2.
Proof.
  intros H. apply Forall_fmap, Forall_forall.
  intros r [_ Hr]%list_elem_of_filter.
  rewrite Forall_forall in H. by apply H.
Qed.

(** The rows of the normalized frame: one per bin between the first and the
    last bin of what is resampled, labelled by the bin, holding the sum of the
    quantities that the query returned for the bin. *)
Lemma normalize_rows self moves d q :
  moves <> [] ->
  (d, q) ∈ df_qty (normalize self moves) ->
  let o := to_offset (freq self) in
  d = label o (bin o d) /\
  (q == Qsum (in_bin o (bin o d) moves).*2)%Q /\
  ((forall r, r ∈ moves -> bin o r.1 <> bin o d) -> q = 0%Q).
Proof.
  intros Hne Hin o. unfold normalize, fillna in Hin.
  destruct (boundaries_spec self moves) as (synth & E & Hz).
  rewrite E in Hin.
  destruct (resample_sum_spec (freq self) (moves ++ synth)) as (lo & hi & _ & _ & _ & Er).
  { by destruct moves. }
  rewrite Er in Hin. apply list_elem_of_fmap in Hin as (i & [= -> ->] & _).
  fold o. rewrite (bin_label _ (to_offset_laws (freq self))).
  split; [done|]. unfold in_bin. rewrite (filter_app _ moves synth), fmap_app. split.
  - apply Qsum_app_zeros, in_bin_zeros, Hz.
  - intros Hnone. apply Qsum_zeros, Forall_app. split; [|apply in_bin_zeros, Hz].
    apply Forall_fmap, Forall_forall. intros r [Hb Hr]%list_elem_of_filter.
    by destruct (Hnone r Hr).
Qed.

Lemma normalize_covers_rows self moves r :
  r ∈ add_date_end self (add_date_start self moves) ->
  let o := to_offset (freq self) in
  exists q, (label o (bin o r.1), q) ∈ df_qty (normalize self moves).
Proof.
  intros Hr o. unfold normalize, fillna.
  set (rows := add_date_end self (add_date_start self moves)) in *.
  destruct (resample_sum_spec (freq self) rows) as (lo & hi & _ & _ & Hb & ->).
  { intros E. rewrite E in Hr. by apply elem_of_nil in Hr. }
  fold o. exists (Qsum (in_bin o (bin o r.1) rows).*2).
  apply (list_elem_of_fmap_2' _ _ (bin o r.1)); [|done].
  apply elem_of_seqZ. specialize (Hb r Hr). fold o in Hb. lia.
Qed.

Lemma normalize_covers self moves r :
  r ∈ moves ->
  let o := to_offset (freq self) in
  exists q, (label o (bin o r.1), q) ∈ df_qty (normalize self moves).
Proof.
  intros Hr. apply normalize_covers_rows.
  destruct (boundaries_spec self moves) as (synth & -> & _). set_solver.
Qed.

Lemma normalize_consecutive self moves k d d' :
  moves <> [] ->
  (df_qty (normalize self moves)).*1 !! k = Some d ->
  (df_qty (normalize self moves)).*1 !! S k = Some d' ->
  let o := to_offset (freq self) in
  d = label o (bin o d) /\ d' = label o (bin o d + 1).
Proof.
  intros Hne Hk HSk o. rewrite normalize_index in Hk, HSk by done.
  apply list_lookup_fmap_Some in Hk as (p & -> & [-> _]%lookup_seqZ).
  apply list_lookup_fmap_Some in HSk as (p' & -> & [-> _]%lookup_seqZ).
  unfold normalize, fillna.
  destruct (resample_sum_position (freq self)
              (add_date_end self (add_date_start self moves))) as [lo Hpos].
  { by apply boundaries_nonempty. }
  rewrite !Hpos. fold o. rewrite (bin_label _ (to_offset_laws (freq self))).
  split; [done|]. f_equal. lia.
Qed.

Lemma normalize_sorted self moves :
  moves <> [] -> StronglySorted Z.lt (df_qty (normalize self moves)).*1.
Proof. intros H. rewrite normalize_index by done. apply position_dates_sorted. Qed.

(** C6: on any row at all, the dates of the normalized series are
    strictly ascending; each is the label of its bucket and the next one is
    the label of the next bucket (the next day for a daily interval, seven
    days later for a weekly one), so no bucket is skipped and none comes
    twice; every bucket of the query is there, and a bucket that the query
    did not return holds [0.0]; the history that [_calculate_data] returns
    is this series.  The scenario of the specification normalizes as the
    specification says. *)
Theorem normalized_series_contiguous :
  (forall self moves,
     moves <> [] ->
     let o := to_offset (freq self) in
     let series := df_qty (normalize self moves) in
     StronglySorted Z.lt series.*1 /\
     (forall k d d',
        series.*1 !! k = Some d -> series.*1 !! S k = Some d' ->
        d = label o (bin o d) /\ d' = label o (bin o d + 1) /\
        (interval self = day -> d' = d + 1) /\
        (interval self = week -> d' = d + 7)) /\
     (forall r, r ∈ moves -> exists q, (label o (bin o r.1), q) ∈ series) /\
     (forall d q,
        (d, q) ∈ series ->
        (forall r, r ∈ moves -> bin o r.1 <> bin o d) -> q = 0%Q) /\
     (forall sm, exists forecast_moves log,
        _calculate_data sm self moves
        = (Moves (map history_move series ++ forecast_moves), log))) /\
  (forall self,
     interval self = day ->
     date_start self = Some (Calendar.date 2024 1 1) ->
     date_end self = Some (Calendar.date 2024 1 3) ->
     normalize self [(Calendar.date 2024 1 1, 5%Q); (Calendar.date 2024 1 3, 7%Q)]
     = {| df_freq := "d";
          df_qty := [(Calendar.date 2024 1 1, 5%Q);
                     (Calendar.date 2024 1 2, 0%Q);
                     (Calendar.date 2024 1 3, 7%Q)] |}).
Proof.
  split.
  - intros self moves Hne o series. split; [by apply normalize_sorted|].
    split; [|split; [|split]].
    + intros k d d' Hk HSk.
      destruct (normalize_consecutive self moves k d d' Hne Hk HSk) as [Hd Hd'].
      fold o in Hd, Hd'. split; [done|]. split; [done|].
      subst o. unfold freq in *.
      split; intros Hi; rewrite Hi in *; simpl in *; lia.
    + intros r Hr. by apply normalize_covers.
    + intros d q Hin. by apply (normalize_rows self moves d q Hne Hin).
    + intros sm.
      destruct (method_to_call sm self (normalize self moves))
        as [forecast log] eqn:E.
      rewrite (calculate_data_nonempty sm self moves Hne _ _ E). eauto.
  - intros self Hi Hs He.
    unfold normalize, add_date_start, add_date_end, freq.
    rewrite Hi, Hs, He. vm_compute. reflexivity.
Qed.

Lemma normalized_series_contiguous_witness :
  let self := Scenario.request ar_method 1 in
  StronglySorted Z.lt (df_qty (normalize self Scenario.raw)).*1 /\
  df_qty (normalize self Scenario.raw)
  = [(19723, 5%Q); (19724, 0%Q); (19725, 7%Q)].
Proof.
  intros self. destruct normalized_series_contiguous as [H1 H2]. split.
  - by apply (H1 self Scenario.raw).
  - exact (f_equal df_qty (H2 self eq_refl eq_refl eq_refl)).
Defined.

(** ** The boundary buckets *)

(** C7, as stated, fails: the bucket at [date_start] is not put in front
    of the rows. *)
Lemma date_start_bucket_not_prepended :
  ~ (forall self first rest ds,
       date_start self = Some ds -> ds < first.1 ->
       add_date_start self (first :: rest) = (ds, 0%Q) :: first :: rest).
Proof.
  intros H.
  specialize (H (Scenario.early (Scenario.request ar_method 1))
                (19723, 5%Q) [(19725, 7%Q)] 19722 eq_refl eq_refl).
  discriminate H.
Qed.

(** C7, amended: when the first bucket starts after [date_start], the
    zero bucket at [date_start] is appended behind the rows, not put in front
    of them.  The test for [date_end] is then made on the last element of
    that list: when it starts before [date_end], the zero bucket at [date_end]
    is appended; with [date_end > date_start] that happens whenever the last
    bucket of the query starts before [date_end].  Resampling places every
    bucket by its date: both boundaries have their bucket in the normalized
    series, no date comes twice, and each quantity is the sum of what the
    query returned for the bucket, the synthetic buckets adding nothing. *)
Theorem boundary_buckets self first rest :
  let moves := first :: rest in
  let extended := add_date_start self moves in
  let o := to_offset (freq self) in
  (forall ds, date_start self = Some ds -> ds < first.1 ->
     extended = moves ++ [(ds, 0%Q)]) /\
  (forall de final,
     date_end self = Some de -> last extended = Some final -> final.1 < de ->
     add_date_end self extended = extended ++ [(de, 0%Q)]) /\
  (dates_check self ->
   forall de final,
     date_end self = Some de -> last moves = Some final -> final.1 < de ->
     add_date_end self extended = extended ++ [(de, 0%Q)]) /\
  (forall r, r ∈ add_date_end self extended ->
     exists q, (label o (bin o r.1), q) ∈ df_qty (normalize self moves)) /\
  NoDup (df_qty (normalize self moves)).*1 /\
  (forall d q, (d, q) ∈ df_qty (normalize self moves) ->
     (q == Qsum (in_bin o (bin o d) moves).*2)%Q).
Proof.
  intros moves extended o.
  assert (Hstart : forall ds, date_start self = Some ds -> ds < first.1 ->
            extended = moves ++ [(ds, 0%Q)]).
  { intros ds Hs Hlt. subst extended moves. unfold add_date_start.
    rewrite Hs. by apply Z.ltb_lt in Hlt as ->. }
  assert (Hend : forall de final,
            date_end self = Some de -> last extended = Some final -> final.1 < de ->
            add_date_end self extended = extended ++ [(de, 0%Q)]).
  { intros de final He Hl Hlt. unfold add_date_end.
    rewrite He, Hl. by apply Z.ltb_lt in Hlt as ->. }
  split; [done|]. split; [done|]. split; [|split; [|split]].
  - intros Hcheck de final He Hl Hlt. unfold dates_check in Hcheck.
    rewrite He in Hcheck.
    destruct (date_start self) as [ds|] eqn:Hs.
    + destruct (decide (ds < first.1)) as [Hds|Hds].
      * apply (Hend de (ds, 0%Q)); [done| |done].
        rewrite (Hstart ds eq_refl Hds). apply last_snoc.
      * apply (Hend de final); [done| |done].
        subst extended moves. unfold add_date_start. rewrite Hs.
        by apply Z.ltb_nlt in Hds as ->.
    + apply (Hend de final); [done| |done].
      subst extended moves. unfold add_date_start. by rewrite Hs.
  - intros r Hr. by apply normalize_covers_rows.
  - rewrite normalize_index by done. apply position_dates_NoDup.
  - intros d q Hin. by apply (normalize_rows self moves d q).
Qed.

Lemma boundary_buckets_witness :
  let self := Scenario.early (Scenario.request ar_method 1) in
  add_date_start self Scenario.raw = Scenario.raw ++ [(19722, 0%Q)] /\
  add_date_end self (add_date_start self Scenario.raw)
  = Scenario.raw ++ [(19722, 0%Q); (19725, 0%Q)] /\
  df_qty (normalize self Scenario.raw)
  = [(19722, 0%Q); (19723, 5%Q); (19724, 0%Q); (19725, 7%Q)].
Proof.
  intros self.
  destruct (boundary_buckets self (19723, 5%Q) [(19725, 7%Q)])
    as (Hs & He & _).
  split; [|split].
  - exact (Hs 19722 eq_refl eq_refl).
  - exact (He 19725 (19722, 0%Q) eq_refl eq_refl eq_refl).
  - vm_compute. reflexivity.
Defined.

(** ** The assembled result *)

Lemma date_datetime_history kv : date_datetime (history_move kv) = kv.1.
Proof. done. Qed.

Lemma date_datetime_forecast kv : date_datetime (forecast_move kv) = kv.1.
Proof. done. Qed.

Lemma dates_of_history (rows : Series) :
  map date_datetime (map history_move rows) = rows.*1.
Proof. induction rows as [|kv rows IH]; [done|]. simpl. by rewrite IH. Qed.

Lemma dates_of_forecast (rows : Series) :
  map date_datetime (map forecast_move rows) = rows.*1.
Proof. induction rows as [|kv rows IH]; [done|]. simpl. by rewrite IH. Qed.

(** The export sorts the records by date, latest first, and loses none. *)
Lemma insert_desc_perm {A} (key : A -> Z) x l : insert_desc key x l ≡ₚ x :: l.
Proof.
  induction l as [|y l IH]; simpl; [done|].
  case_match; [|done]. rewrite IH. apply Permutation_swap.
Qed.

Lemma sorted_reverse_perm {A} (key : A -> Z) l : sorted_reverse key l ≡ₚ l.
Proof.
  induction l as [|x l IH]; simpl; [done|].
  by rewrite insert_desc_perm, IH.
Qed.

Lemma insert_desc_sorted {A} (key : A -> Z) x l :
  StronglySorted (fun a b => key b <= key a) l ->
  StronglySorted (fun a b => key b <= key a) (insert_desc key x l).
Proof.
  induction 1 as [|y l Hl IH Hy]; simpl; [by repeat constructor|].
  case_match eqn:E.
  - apply Z.ltb_lt in E. constructor; [done|].
    rewrite insert_desc_perm. constructor; [lia|done].
  - apply Z.ltb_ge in E. constructor; [by constructor|].
    constructor; [done|]. eapply Forall_impl; [exact Hy|].
    simpl. intros z Hz. lia.
Qed.

Lemma sorted_reverse_sorted {A} (key : A -> Z) l :
  StronglySorted (fun a b => key b <= key a) (sorted_reverse key l).
Proof.
  induction l as [|x l IH]; simpl; [constructor|]. by apply insert_desc_sorted.
Qed.

(** C8: the records that [_calculate_data] returns are the history, then
    the forecast, each forecast record flagged; their dates ascend strictly
    from the first to the last. *)
Theorem result_history_then_forecast_ascending sm self moves res_moves log :
  predict_index sm ->
  _calculate_data sm self moves = (Moves res_moves, log) ->
  exists history forecast_moves,
    res_moves = history ++ forecast_moves /\
    history = map history_move (df_qty (normalize self moves)) /\
    (forall r, r ∈ history -> r !! "forecast" = None) /\
    (forall r, r ∈ forecast_moves -> r !! "forecast" = Some (PyBool true)) /\
    StronglySorted Z.lt (map date_datetime res_moves).
Proof.
  intros Hsm (Hne & forecast & Hcall & ->)%calculate_data_moves.
  eexists _, _. split; [done|]. split; [done|].
  split; [|split].
  - intros r (kv & -> & _)%list_elem_of_fmap. done.
  - destruct forecast as [|prediction]; [by intros r ?%elem_of_nil|].
    intros r (kv & -> & _)%list_elem_of_fmap. done.
  - rewrite map_app, dates_of_history, normalize_index by done.
    destruct forecast as [|prediction].
    { rewrite app_nil_r. apply position_dates_sorted. }
    apply method_to_call_index in Hcall as [Hf _]; [|done].
    rewrite to_dict_NoDup, dates_of_forecast, Hf
      by (rewrite Hf; apply position_dates_NoDup).
    destruct (decide (0 <= predicted_periods self)) as [Hpp|Hpp].
    + rewrite <- fmap_app, <- seqZ_app by (unfold len; lia).
      apply position_dates_sorted.
    + rewrite (seqZ_nil _ (predicted_periods self)) by lia.
      rewrite app_nil_r. apply position_dates_sorted.
Qed.

Lemma result_history_then_forecast_ascending_witness :
  let self := Scenario.request hwes_method 3 in
  exists history forecast_moves,
    (_calculate_data Naive.statsmodels self Scenario.raw).1
    = Moves (history ++ forecast_moves) /\
    history = map history_move [(19723, 5%Q); (19724, 0%Q); (19725, 7%Q)] /\
    forecast_moves
    = map forecast_move [(19726, 7%Q); (19727, 7%Q); (19728, 7%Q)] /\
    StronglySorted Z.lt (map date_datetime (history ++ forecast_moves)).
Proof.
  intros self.
  destruct (result_history_then_forecast_ascending Naive.statsmodels self
              Scenario.raw
              (map history_move [(19723, 5%Q); (19724, 0%Q); (19725, 7%Q)]
               ++ map forecast_move [(19726, 7%Q); (19727, 7%Q); (19728, 7%Q)])
              [] Naive_predict_index)
    as (history & forecast_moves & _ & _ & _ & _ & Hsorted).
  { vm_compute. reflexivity. }
  exists (map history_move [(19723, 5%Q); (19724, 0%Q); (19725, 7%Q)]),
    (map forecast_move [(19726, 7%Q); (19727, 7%Q); (19728, 7%Q)]).
  split; [vm_compute; reflexivity|].
  split; [reflexivity|]. split; [reflexivity|]. exact Hsorted.
Defined.

(** C9: a record of the history has the two keys ["date_datetime"] and
    ["quantity"] and no key ["forecast"]; a record of the forecast has the
    key, with the value [True].  The export tells them apart by
    [move.get("forecast")]: it writes the former with the plain formats and
    the latter with the [red_] ones. *)
Theorem history_moves_omit_forecast_key sm self moves res_moves log :
  _calculate_data sm self moves = (Moves res_moves, log) ->
  exists history forecast_moves,
    res_moves = history ++ forecast_moves /\
    history = map history_move (df_qty (normalize self moves)) /\
    (forall r, r ∈ history ->
       dom r = ({["date_datetime"; "quantity"]} : gset string) /\
       r !! "forecast" = None /\
       truthy (r !! "forecast") = false /\
       forall row,
         write_move row r
         = [Cell row 0 (r !! "date_datetime") "data_time_format";
            Cell row 1 (r !! "quantity") "main_data_style"]) /\
    (forall r, r ∈ forecast_moves ->
       dom r = ({["date_datetime"; "quantity"; "forecast"]} : gset string) /\
       r !! "forecast" = Some (PyBool true) /\
       truthy (r !! "forecast") = true /\
       forall row,
         write_move row r
         = [Cell row 0 (r !! "date_datetime") "red_data_time_format";
            Cell row 1 (r !! "quantity") "red_main_data_style"]).
Proof.
  intros (Hne & forecast & Hcall & ->)%calculate_data_moves.
  eexists _, _. split; [done|]. split; [done|]. split.
  - intros r (kv & -> & _)%list_elem_of_fmap. split; [|done].
    unfold history_move. rewrite dom_insert_L, dom_singleton_L. set_solver.
  - destruct forecast as [|prediction]; [by intros r ?%elem_of_nil|].
    intros r (kv & -> & _)%list_elem_of_fmap. split; [|done].
    unfold forecast_move. rewrite !dom_insert_L, dom_singleton_L. set_solver.
Qed.

Lemma history_moves_omit_forecast_key_witness :
  history_move (19723, 5%Q) !! "forecast" = None /\
  forecast_move (19726, 7%Q) !! "forecast" = Some (PyBool true).
Proof.
  destruct (history_moves_omit_forecast_key Naive.statsmodels
              (Scenario.request hwes_method 1) Scenario.raw
              (map history_move [(19723, 5%Q); (19724, 0%Q); (19725, 7%Q)]
               ++ map forecast_move [(19726, 7%Q)]) [])
    as (history & forecast_moves & E & -> & Hhistory & Hforecast);
    [vm_compute; reflexivity|].
  change (df_qty (normalize (Scenario.request hwes_method 1) Scenario.raw))
    with [(19723, 5%Q); (19724, 0%Q); (19725, 7%Q)] in *.
  apply app_inv_head in E as <-. split.
  - apply Hhistory. apply list_elem_of_here.
  - apply Hforecast. apply list_elem_of_here.
Defined.

Lemma calculate_data_first_move sm self moves :
  moves <> [] ->
  exists kv res log,
    head (df_qty (normalize self moves)) = Some kv /\
    _calculate_data sm self moves = (Moves (history_move kv :: res), log).
Proof.
  intros Hne.
  destruct (method_to_call sm self (normalize self moves)) as [forecast log] eqn:E.
  rewrite (calculate_data_nonempty sm self moves Hne _ _ E).
  pose proof (normalize_nonempty self moves Hne) as Hrows.
  destruct (df_qty (normalize self moves)) as [|kv rows]; [done|].
  simpl. eauto.
Qed.

(** C10: on any row at all [_calculate_data] returns a list that begins
    with a record of the history, so [not moves] holds of its result exactly
    when the query returned no row, and both callers answer with the
    notification in that case only: a run without a forecast is not taken
    for a run without data.  The export comes to this test once its sheet is
    created; when xlsxwriter refuses the sheet it raises that error, on any
    rows and on none. *)
Theorem result_falsy_iff_no_rows sm self moves :
  (moves <> [] ->
   exists kv res,
     head (df_qty (normalize self moves)) = Some kv /\
     (_calculate_data sm self moves).1 = Moves (history_move kv :: res)) /\
  (not_ (_calculate_data sm self moves).1 = true <-> moves = []) /\
  ((action_calculate sm self moves).1
   = display_notification NODATATITLE NODATAWARNING false <-> moves = []) /\
  (forall xw today sc nm,
     let export := action_export_to_xlsx xw sm today sc nm self moves in
     (forall er, add_worksheet xw (xlsx_name sc nm today) = inl er ->
                 export = inl er) /\
     (forall worksheet,
        add_worksheet xw (xlsx_name sc nm today) = inr worksheet ->
        (exists a log, export = inr (a, log)) /\
        ((exists log,
            export
            = inr (display_notification NODATATITLE NODATAWARNING false, log))
         <-> moves = []))).
Proof.
  split; [|split; [|split]].
  - intros (kv & res & log & Hkv & ->)%(calculate_data_first_move sm self). eauto.
  - split; [|by intros ->].
    destruct moves as [|first rest]; [done|].
    destruct (calculate_data_first_move sm self (first :: rest))
      as (kv & res & log & _ & ->); done.
  - split; [|by intros ->].
    destruct moves as [|first rest]; [done|].
    unfold action_calculate.
    destruct (calculate_data_first_move sm self (first :: rest))
      as (kv & res & log & _ & ->); done.
  - intros xw today sc nm export. subst export. unfold action_export_to_xlsx.
    split; [by intros er ->|]. intros worksheet ->. cbn [bind_exn].
    destruct moves as [|first rest].
    + split; [by eauto|]. split; [done|]. intros _. by eexists.
    + destruct (calculate_data_first_move sm self (first :: rest))
        as (kv & res & log & _ & ->); [done|].
      cbn [not_]. split; [by eauto|]. split; [|done].
      intros [log' H]. discriminate H.
Qed.

Lemma result_falsy_iff_no_rows_witness :
  let self := Scenario.request arima_method 1 in
  (_calculate_data Naive.statsmodels self Scenario.raw).1
  = Moves (map history_move [(19723, 5%Q); (19724, 0%Q); (19725, 7%Q)]) /\
  not_ (_calculate_data Naive.statsmodels self Scenario.raw).1 = false /\
  action_export_to_xlsx Xlsx.xlsxwriter Naive.statsmodels (Calendar.date 2024 1 4)
    Xlsx.by_product Xlsx.long_name self Scenario.raw
  = inl "Excel worksheet name 'Stainless bolt M8#2024-01-04.xlsx' must be <= 31 chars.".
Proof.
  intros self.
  destruct (result_falsy_iff_no_rows Naive.statsmodels self Scenario.raw)
    as (H & Hnot & _ & Hexport).
  destruct H as (kv & res & _ & _); [discriminate|].
  split; [vm_compute; reflexivity|]. split.
  - apply not_true_is_false. intros E. apply Hnot in E. discriminate E.
  - destruct (Hexport Xlsx.xlsxwriter (Calendar.date 2024 1 4) Xlsx.by_product
                Xlsx.long_name) as [Hraise _].
    apply Hraise. vm_compute. reflexivity.
Defined.

(** * Further properties *)

(** ** The dates of [_onchange_interval] *)

Module DatetimeFacts.
Import Calendar Datetime.

Lemma date_day y m k : date y m k = date y m 1 + k - 1.
Proof. unfold date, ymd2ord. lia. Qed.

Lemma is_leap_year y :
  days_before_year (y + 1)
  = days_before_year y + 365 + (if is_leap y then 1 else 0).
Proof.
  unfold days_before_year, is_leap. cbv zeta.
  replace (y + 1 - 1) with y by lia.
  destruct (Z.eqb_spec (y mod 4) 0), (Z.eqb_spec (y mod 100) 0),
    (Z.eqb_spec (y mod 400) 0); simpl; CalendarFacts.divmod.
Qed.

(** A month ends [days_in_month] days after it starts. *)
Lemma month_length i :
  month_first (i + 1) = month_first i + days_in_month (i / 12) (i mod 12 + 1).
Proof.
  unfold month_first.
  assert (Hr : 0 <= i mod 12 < 12) by (apply Z.mod_pos_bound; lia).
  destruct (decide (i mod 12 = 11)) as [E|E].
  - replace ((i + 1) / 12) with (i / 12 + 1) by CalendarFacts.divmod.
    replace ((i + 1) mod 12) with 0 by CalendarFacts.divmod.
    rewrite E. unfold date, ymd2ord. rewrite is_leap_year.
    unfold days_before_month, days_in_month. simpl.
    destruct (is_leap (i / 12)); simpl; lia.
  - replace ((i + 1) / 12) with (i / 12) by CalendarFacts.divmod.
    replace ((i + 1) mod 12) with (i mod 12 + 1) by CalendarFacts.divmod.
    unfold date, ymd2ord, days_before_month, days_in_month.
    assert (Hc : i mod 12 = 0 \/ i mod 12 = 1 \/ i mod 12 = 2 \/ i mod 12 = 3 \/
                 i mod 12 = 4 \/ i mod 12 = 5 \/ i mod 12 = 6 \/ i mod 12 = 7 \/
                 i mod 12 = 8 \/ i mod 12 = 9 \/ i mod 12 = 10) by lia.
    destruct (is_leap (i / 12));
      repeat (destruct Hc as [Hc|Hc]; [rewrite Hc; simpl; lia|]);
      rewrite Hc; simpl; lia.
Qed.

Lemma days_in_month_pos y m : 28 <= days_in_month y m <= 31.
Proof.
  unfold days_in_month, mdays.
  destruct ((m =? 2) && is_leap y) eqn:E.
  - apply andb_prop in E as [->%Z.eqb_eq _]. lia.
  - repeat case_match; lia.
Qed.

(** The last day of a month, as the form computes it. *)
Lemma month_end y m :
  1 <= m <= 12 ->
  (days <- monthrange_days y m ;; new_date y m days)
  = inr (month_last (12 * y + m - 1)).
Proof.
  intros Hm. unfold monthrange_days, new_date.
  pose proof (days_in_month_pos y m).
  replace ((1 <=? m) && (m <=? 12)) with true by (symmetry; apply andb_true_intro; lia).
  cbn [bind_exn negb].
  replace ((1 <=? days_in_month y m) && (days_in_month y m <=? days_in_month y m))
    with true by (symmetry; apply andb_true_intro; lia).
  cbn [negb]. f_equal. unfold month_last.
  rewrite (month_length (12 * y + m - 1)). unfold month_first.
  replace ((12 * y + m - 1) / 12) with y by CalendarFacts.divmod.
  replace ((12 * y + m - 1) mod 12 + 1) with m by CalendarFacts.divmod.
  rewrite (date_day y m (days_in_month y m)). lia.
Qed.

Lemma month_end_bad y m :
  ~ 1 <= m <= 12 ->
  (days <- monthrange_days y m ;; new_date y m days)
  = inl ("bad month number " +:+ repr_int m +:+ "; must be 1-12").
Proof.
  intros Hm. unfold monthrange_days.
  replace ((1 <=? m) && (m <=? 12)) with false; [done|].
  symmetry. apply andb_false_iff. lia.
Qed.

(** [n] months back is [n] months back, whatever the day. *)
Lemma month_index_minus_months d n :
  month_index (minus_months d n) = month_index d - n.
Proof.
  unfold minus_months. cbv zeta. set (i := month_index d - n).
  apply CalendarFacts.month_index_unique.
  rewrite (month_length i), date_day. fold (month_first i).
  pose proof (days_in_month_pos (i / 12) (i mod 12 + 1)).
  pose proof (CalendarFacts.month_index_spec d). unfold day_of. lia.
Qed.

Lemma last_quarter_month_table m :
  1 <= m <= 12 ->
  last_quarter_month m
  = match m with
    | 1 => 3 | 2 => 4 | 3 => 5 | 4 => 6 | 5 => 6 | 6 => 8
    | 7 => 9 | 8 => 10 | 9 => 11 | 10 => 12 | _ => 13
    end.
Proof.
  intros Hm.
  assert (Hc : m = 1 \/ m = 2 \/ m = 3 \/ m = 4 \/ m = 5 \/ m = 6 \/ m = 7 \/
               m = 8 \/ m = 9 \/ m = 10 \/ m = 11 \/ m = 12) by lia.
  repeat (destruct Hc as [->|Hc]; [by vm_compute|]). subst m. by vm_compute.
Qed.

End DatetimeFacts.

Lemma month_last_inj i j : Calendar.month_last i = Calendar.month_last j -> i = j.
Proof.
  intros H. destruct (Z.lt_trichotomy i j) as [Hlt|[->|Hgt]]; [|done|].
  - pose proof (CalendarFacts.month_last_lt i j Hlt). lia.
  - pose proof (CalendarFacts.month_last_lt j i Hgt). lia.
Qed.

(** What [_onchange_interval] answers for the intervals other than
    quarter. *)
Lemma onchange_interval_result today self :
  interval self <> quarter ->
  let o := to_offset (freq self) in
  _onchange_interval today self
  = inr (set_date_end_seasons (label o (bin o today - 1))
           (match interval self with day => 7 | month => 3 | _ => 1 end) self).
Proof.
  intros Hq o. subst o. unfold _onchange_interval, freq in *.
  destruct (interval self) eqn:Hi; [| | |done|]; simpl in *.
  - done.
  - do 2 f_equal. unfold Datetime.weekday. CalendarFacts.divmod.
  - unfold Datetime.year_of, Datetime.month_of.
    rewrite DatetimeFacts.month_index_minus_months.
    set (i := Calendar.month_index today) in *.
    assert (Hm : 1 <= (i - 1) mod 12 + 1 <= 12) by CalendarFacts.divmod.
    pose proof (DatetimeFacts.month_end ((i - 1) / 12) _ Hm) as E.
    replace (12 * ((i - 1) / 12) + ((i - 1) mod 12 + 1) - 1) with (i - 1) in E
      by CalendarFacts.divmod.
    destruct (Datetime.monthrange_days _ _) as [er|days]; cbn [bind_exn] in *;
      [done|].
    by rewrite E.
  - unfold Datetime.year_of.
    rewrite DatetimeFacts.month_index_minus_months.
    set (i := Calendar.month_index today) in *.
    assert (E : inr (Calendar.date ((i - 12) / 12) 12
                       (Datetime.days_in_month ((i - 12) / 12) 12))
                = inr (Calendar.month_last (12 * ((i - 12) / 12) + 12 - 1))
                :> Exception + Z)
      by exact (DatetimeFacts.month_end ((i - 12) / 12) 12 ltac:(lia)).
    injection E as ->.
    by replace (12 * ((i - 12) / 12) + 12 - 1) with (12 * (i / 12 - 1) + 11)
      by CalendarFacts.divmod.
Qed.

(** The label of the bucket before today's is a day before today. *)
Lemma previous_label_lt freq today :
  let o := to_offset freq in
  label o (bin o today - 1) < today.
Proof.
  pose proof (CalendarFacts.month_index_spec today) as Hs.
  set (i := Calendar.month_index today) in *.
  assert (Hmonth : forall j, j + 1 <= i -> Calendar.month_last j < today).
  { intros j Hj. unfold Calendar.month_last.
    pose proof (CalendarFacts.month_first_le (j + 1) i Hj). lia. }
  unfold to_offset. repeat case_match; simpl; fold i.
  - CalendarFacts.divmod.
  - apply Hmonth. lia.
  - apply Hmonth. CalendarFacts.divmod.
  - apply Hmonth. CalendarFacts.divmod.
  - lia.
Qed.

(** X1: for the intervals day, week, month and year, [_onchange_interval]
    never raises and sets [date_end] to the last day of the period before
    the one [today] is in: the label of the bucket that precedes today's
    bucket in the resampled series, a day strictly before [today]. *)
Theorem onchange_interval_previous_period today self :
  interval self <> quarter ->
  let o := to_offset (freq self) in
  let res_date := label o (bin o today - 1) in
  _onchange_interval today self
  = inr (set_date_end_seasons res_date
           (match interval self with day => 7 | month => 3 | _ => 1 end) self) /\
  res_date < today /\
  bin o res_date = bin o today - 1.
Proof.
  intros Hq o res_date. split; [|split].
  - by apply onchange_interval_result.
  - apply previous_label_lt.
  - apply (bin_label _ (to_offset_laws (freq self))).
Qed.

Lemma onchange_interval_previous_period_witness :
  let self := Scenario.request ar_method 1 in
  _onchange_interval (Calendar.date 2024 5 15) (Scenario.unbounded self)
  = inr (set_date_end_seasons (Calendar.date 2024 5 14) 7 (Scenario.unbounded self)).
Proof.
  intros self.
  destruct (onchange_interval_previous_period (Calendar.date 2024 5 15)
              (Scenario.unbounded self)) as [H _]; [discriminate|].
  exact H.
Defined.

Lemma onchange_interval_quarter_result today self :
  interval self = quarter ->
  _onchange_interval today self
  = let i := Calendar.month_index today in
    if (i mod 12 =? 1) || (i mod 12 =? 2)
    then inl "bad month number 13; must be 1-12"
    else inr (set_date_end_seasons
                (Calendar.month_last (if i mod 12 =? 7 then i - 2 else i - 1))
                2 self).
Proof.
  intros Hi. unfold _onchange_interval. rewrite Hi. cbv zeta.
  unfold Datetime.year_of, Datetime.month_of.
  rewrite DatetimeFacts.month_index_minus_months.
  set (i := Calendar.month_index today).
  assert (Hr : 0 <= i mod 12 < 12) by (apply Z.mod_pos_bound; lia).
  assert (Hm : 1 <= (i - 3) mod 12 + 1 <= 12) by CalendarFacts.divmod.
  rewrite (DatetimeFacts.last_quarter_month_table _ Hm).
  assert (Hc : i mod 12 = 0 \/ i mod 12 = 1 \/ i mod 12 = 2 \/ i mod 12 = 3 \/
               i mod 12 = 4 \/ i mod 12 = 5 \/ i mod 12 = 6 \/ i mod 12 = 7 \/
               i mod 12 = 8 \/ i mod 12 = 9 \/ i mod 12 = 10 \/ i mod 12 = 11)
    by lia.
  assert (Hgood : forall k j,
            1 <= k <= 12 -> 12 * ((i - 3) / 12) + k - 1 = j ->
            (days <- Datetime.monthrange_days ((i - 3) / 12) k ;;
             res_date <- Datetime.new_date ((i - 3) / 12) k days ;;
             inr (set_date_end_seasons res_date 2 self))
            = inr (set_date_end_seasons (Calendar.month_last j) 2 self)).
  { intros k j Hk <-.
    pose proof (DatetimeFacts.month_end ((i - 3) / 12) k Hk) as E.
    destruct (Datetime.monthrange_days _ _) as [er|days]; cbn [bind_exn] in *;
      [done|].
    by rewrite E. }
  assert (Hbad : forall k,
            ~ 1 <= k <= 12 ->
            (days <- Datetime.monthrange_days ((i - 3) / 12) k ;;
             res_date <- Datetime.new_date ((i - 3) / 12) k days ;;
             inr (set_date_end_seasons res_date 2 self))
            = inl ("bad month number " +:+ Datetime.repr_int k
                   +:+ "; must be 1-12")).
  { intros k Hk. pose proof (DatetimeFacts.month_end_bad ((i - 3) / 12) k Hk) as E.
    destruct (Datetime.monthrange_days _ _) as [er|days]; cbn [bind_exn] in *;
      [by injection E as -> | by rewrite E]. }
  assert (Hshift : (i - 3) mod 12 + 1 = (i mod 12 + 9) mod 12 + 1)
    by CalendarFacts.divmod.
  rewrite Hshift.
  destruct Hc as [Hc|[Hc|[Hc|[Hc|[Hc|[Hc|[Hc|[Hc|[Hc|[Hc|[Hc|Hc]]]]]]]]]]];
    rewrite Hc; cbn [Z.eqb Pos.eqb orb];
    first [ etransitivity; [apply Hbad; simpl; lia | reflexivity]
          | apply Hgood; simpl; [lia | CalendarFacts.divmod] ].
Qed.

(** X2: for the interval quarter, [_onchange_interval] raises the
    [IllegalMonthError] of [monthrange] when [today] is in February or in
    March: the month it computes with the division of floats is then 13.  In any other month it sets [date_end] to
    the last day of the month before today's (two months before, in August),
    a day before [today]; that day is the end of the previous quarter only
    when [today] is in January, April, July, August or October. *)
Theorem onchange_interval_quarter today self :
  interval self = quarter ->
  let M := Datetime.month_of today in
  let i := Calendar.month_index today in
  (M = 2 \/ M = 3 ->
   _onchange_interval today self = inl "bad month number 13; must be 1-12") /\
  (M <> 2 -> M <> 3 ->
   exists res_date,
     _onchange_interval today self = inr (set_date_end_seasons res_date 2 self) /\
     res_date = Calendar.month_last (if M =? 8 then i - 2 else i - 1) /\
     res_date < today /\
     (res_date = label Offsets.QuarterEnd (bin Offsets.QuarterEnd today - 1)
      <-> M = 1 \/ M = 4 \/ M = 7 \/ M = 8 \/ M = 10)).
Proof.
  intros Hi M i. rewrite (onchange_interval_quarter_result today self Hi).
  cbv zeta. subst M. unfold Datetime.month_of. fold i.
  assert (Hr : 0 <= i mod 12 < 12) by (apply Z.mod_pos_bound; lia).
  pose proof (CalendarFacts.month_index_spec today) as Hs. fold i in Hs.
  pose proof (CalendarFacts.month_first_step (i - 1)) as Hstep.
  replace (i - 1 + 1) with i in Hstep by lia.
  split.
  - intros HM.
    replace ((i mod 12 =? 1) || (i mod 12 =? 2)) with true; [done|].
    symmetry. apply orb_true_iff. lia.
  - intros H2 H3.
    replace ((i mod 12 =? 1) || (i mod 12 =? 2)) with false
      by (symmetry; apply orb_false_iff; lia).
    replace (i mod 12 + 1 =? 8) with (i mod 12 =? 7)
      by (destruct (Z.eqb_spec (i mod 12) 7), (Z.eqb_spec (i mod 12 + 1) 8);
          first [done | lia]).
    eexists. split; [done|]. split; [done|]. simpl. fold i.
    destruct (Z.eqb_spec (i mod 12) 7) as [E|E]; unfold Calendar.month_last.
    + replace (i - 2 + 1) with (i - 1) by lia. split; [lia|]. split.
      * intros _. lia.
      * intros _.
        by replace (3 * (i / 3 - 1) + 2 + 1) with (i - 1) by CalendarFacts.divmod.
    + replace (i - 1 + 1) with i by lia. split; [lia|]. split.
      * intros H. assert (Hi' : i - 1 = 3 * (i / 3 - 1) + 2).
        { apply month_last_inj. unfold Calendar.month_last.
          replace (i - 1 + 1) with i by lia. lia. }
        CalendarFacts.divmod.
      * intros H.
        by replace (3 * (i / 3 - 1) + 2 + 1) with i by CalendarFacts.divmod.
Qed.

Lemma onchange_interval_quarter_witness :
  let quarterly :=
    {| date_start := None; date_end := None; predicted_periods := 1;
       interval := quarter; forecast_method := ar_method; lags := 0;
       seasons := 1; p_coefficient := 1; d_coefficient := 1;
       q_coefficient := 1; seasonal_p_coefficient := 1;
       seasonal_d_coefficient := 1; seasonal_q_coefficient := 1 |} in
  _onchange_interval (Calendar.date 2024 2 10) quarterly
  = inl "bad month number 13; must be 1-12" /\
  exists res_date,
    _onchange_interval (Calendar.date 2024 5 15) quarterly
    = inr (set_date_end_seasons res_date 2 quarterly) /\
    res_date = Calendar.date 2024 4 30.
Proof.
  intros quarterly. split.
  - apply (onchange_interval_quarter (Calendar.date 2024 2 10) quarterly eq_refl).
    left. reflexivity.
  - destruct (onchange_interval_quarter (Calendar.date 2024 5 15) quarterly eq_refl)
      as [_ H].
    destruct H as (res_date & E & -> & _); [discriminate | discriminate |].
    exists (Calendar.date 2024 4 30). split; [exact E | reflexivity].
Defined.

(** ** The window of the normalized series *)

Lemma resample_sum_span freq rows :
  rows <> [] ->
  let o := to_offset freq in
  let data := resample_sum freq rows in
  exists lo hi,
    (exists r, r ∈ rows /\ bin o r.1 = lo) /\
    (exists r, r ∈ rows /\ bin o r.1 = hi) /\
    (forall r, r ∈ rows -> lo <= bin o r.1 <= hi) /\
    (df_qty data).*1 = label o <$> seqZ lo (hi - lo + 1) /\
    len data = hi - lo + 1 /\
    forall p, position_date data p = label o (lo + p).
Proof.
  intros Hne o data.
  destruct (resample_sum_spec freq rows Hne)
    as (lo & hi & [r [Hr Hlo]] & Hhi & Hb & E).
  pose proof (Hb r Hr) as Hr'. fold o in Hr', Hlo, E.
  exists lo, hi. split; [by exists r|]. split; [done|]. split; [done|].
  subst data. split; [|split].
  - by rewrite E, <- list_fmap_compose.
  - unfold len. rewrite E, length_fmap, length_seqZ. lia.
  - intros p. unfold position_date. rewrite resample_sum_freq, E.
    rewrite seqZ_cons by lia. simpl.
    by rewrite (bin_label _ (to_offset_laws freq)).
Qed.

Lemma add_date_start_low self moves ds :
  date_start self = Some ds -> moves <> [] ->
  exists r, r ∈ add_date_start self moves /\ r.1 <= ds.
Proof.
  intros Hs Hne. unfold add_date_start. rewrite Hs.
  destruct moves as [|first rest]; [done|].
  destruct (Z.ltb_spec ds first.1).
  - exists (ds, 0%Q). split; [set_solver | simpl; lia].
  - exists first. split; [set_solver | done].
Qed.

Lemma add_date_end_high self rows de :
  date_end self = Some de -> rows <> [] ->
  exists r, r ∈ add_date_end self rows /\ de <= r.1.
Proof.
  intros He Hne. unfold add_date_end. rewrite He.
  destruct (last rows) as [final|] eqn:Hl.
  - destruct (Z.ltb_spec final.1 de).
    + exists (de, 0%Q). split; [set_solver | simpl; lia].
    + exists final. split; [|done].
      apply last_Some in Hl as [l' ->]. set_solver.
  - by apply last_None in Hl.
Qed.

Lemma boundaries_elem self moves r :
  r ∈ add_date_end self (add_date_start self moves) ->
  r ∈ moves \/
  (exists ds, date_start self = Some ds /\ r = (ds, 0%Q)) \/
  (exists de, date_end self = Some de /\ r = (de, 0%Q)).
Proof.
  destruct (add_date_start_cases self moves) as [->|(ds & Hs & ->)];
    [destruct (add_date_end_cases self moves) as [->|(de & He & ->)]
    |destruct (add_date_end_cases self (moves ++ [(ds, 0%Q)]))
       as [->|(de & He & ->)]];
    rewrite ?elem_of_app, ?list_elem_of_singleton; naive_solver.
Qed.

(** The last bucket of the normalized series is the bucket of [date_end],
    when no row of the query starts after it. *)
Lemma normalize_last_bin self moves de :
  moves <> [] ->
  date_end self = Some de ->
  dates_check self ->
  (forall r, r ∈ moves -> r.1 <= de) ->
  let o := to_offset (freq self) in
  let data := normalize self moves in
  last (df_qty data).*1 = Some (label o (bin o de)) /\
  forall p, position_date data (len data + p) = label o (bin o de + 1 + p).
Proof.
  intros Hne He Hcheck Hmoves o data. subst data. unfold normalize, fillna.
  set (rows := add_date_end self (add_date_start self moves)).
  pose proof (to_offset_laws (freq self)) as L. fold o in L.
  destruct (resample_sum_span (freq self) rows) as
    (lo & hi & Hlo & (rh & Hrh & Hhi) & Hb & Ed & El & Ep).
  { by apply boundaries_nonempty. }
  fold o in Hhi, Hb, Ed, Ep.
  assert (Hle : forall r, r ∈ rows -> bin o r.1 <= bin o de).
  { intros r [Hr|[(ds & Hs & ->)|(de' & He' & ->)]]%boundaries_elem.
    - apply (bin_mono _ L). by apply Hmoves.
    - apply (bin_mono _ L). unfold dates_check in Hcheck.
      rewrite Hs, He in Hcheck. simpl. lia.
    - rewrite He in He'. by injection He' as <-. }
  destruct (add_date_end_high self (add_date_start self moves) de He)
    as (r & Hr & Hde).
  { destruct (add_date_start_cases self moves) as [->|(ds & _ & ->)];
      [done | by destruct moves]. }
  assert (Ehi : hi = bin o de).
  { pose proof (Hle rh Hrh). pose proof (Hb r Hr) as [_ ?].
    pose proof (bin_mono _ L _ _ Hde). lia. }
  destruct Hlo as (rl & Hrl & Hlo). pose proof (Hb rl Hrl).
  rewrite Ehi in *. clear Ehi Hhi.
  split.
  - rewrite Ed. replace (bin o de - lo + 1) with (Z.of_nat (S (Z.to_nat (bin o de - lo))))
      by lia.
    rewrite seqZ_S, fmap_app. cbn [fmap list_fmap]. rewrite last_snoc.
    do 2 f_equal. lia.
  - intros p. rewrite Ep, El. f_equal. lia.
Qed.

(** X3: when the series is asked for from [date_start] to [date_end] and
    the buckets of the query lie between the two, the history has exactly
    one record for each bucket from the bucket of [date_start] to the bucket
    of [date_end], whatever buckets the query returned. *)
Theorem normalized_series_spans_window self moves ds de :
  moves <> [] ->
  date_start self = Some ds ->
  date_end self = Some de ->
  let o := to_offset (freq self) in
  (forall r, r ∈ moves -> bin o ds <= bin o r.1 <= bin o de) ->
  (df_qty (normalize self moves)).*1
  = label o <$> seqZ (bin o ds) (bin o de - bin o ds + 1) /\
  len (normalize self moves) = bin o de - bin o ds + 1.
Proof.
  intros Hne Hs He o Hmoves. unfold normalize, fillna.
  set (rows := add_date_end self (add_date_start self moves)).
  pose proof (to_offset_laws (freq self)) as L. fold o in L.
  destruct (resample_sum_span (freq self) rows) as
    (lo & hi & (rl & Hrl & Hlo) & (rh & Hrh & Hhi) & Hb & Ed & El & _).
  { by apply boundaries_nonempty. }
  fold o in Hlo, Hhi, Hb, Ed.
  assert (Hwin : bin o ds <= bin o de).
  { destruct moves as [|first rest]; [done|].
    specialize (Hmoves first ltac:(set_solver)). lia. }
  assert (Hin : forall r, r ∈ rows -> bin o ds <= bin o r.1 <= bin o de).
  { intros r [Hr|[(ds' & Hs' & ->)|(de' & He' & ->)]]%boundaries_elem.
    - by apply Hmoves.
    - rewrite Hs in Hs'. injection Hs' as <-. simpl. lia.
    - rewrite He in He'. injection He' as <-. simpl. lia. }
  destruct (add_date_start_low self moves ds Hs Hne) as (r1 & Hr1 & Hds).
  assert (Hr1' : r1 ∈ rows).
  { subst rows.
    destruct (add_date_end_cases self (add_date_start self moves))
      as [->|(? & _ & ->)]; set_solver. }
  destruct (add_date_end_high self (add_date_start self moves) de He)
    as (r2 & Hr2 & Hde).
  { destruct (add_date_start_cases self moves) as [->|(? & _ & ->)];
      [done | by destruct moves]. }
  assert (Elo : lo = bin o ds).
  { pose proof (Hin rl Hrl). pose proof (Hb r1 Hr1').
    pose proof (bin_mono _ L _ _ Hds). lia. }
  assert (Ehi : hi = bin o de).
  { pose proof (Hin rh Hrh). pose proof (Hb r2 Hr2).
    pose proof (bin_mono _ L _ _ Hde). lia. }
  by rewrite Ed, El, Elo, Ehi.
Qed.

Lemma normalized_series_spans_window_witness :
  let self := Scenario.early (Scenario.request ar_method 1) in
  (df_qty (normalize self Scenario.raw)).*1 = [19722; 19723; 19724; 19725] /\
  len (normalize self Scenario.raw) = 4.
Proof.
  intros self.
  apply (normalized_series_spans_window self Scenario.raw 19722 19725);
    [discriminate | reflexivity | reflexivity |].
  intros r Hr. simpl.
  assert (r = (19723, 5%Q) \/ r = (19725, 7%Q)) as [-> | ->];
    [|simpl; lia..].
  apply elem_of_cons in Hr as [->|Hr]; [by left|].
  apply list_elem_of_singleton in Hr as ->. by right.
Defined.

(** X4: when [date_end] is set, lies after [date_start] and no bucket of
    the query starts after it, the last record of the history is dated by
    the bucket of [date_end], and a forecast is dated by the
    [predicted_periods] buckets that follow it. *)
Theorem forecast_follows_date_end sm self moves de f log :
  predict_index sm ->
  moves <> [] ->
  date_end self = Some de ->
  dates_check self ->
  (forall r, r ∈ moves -> r.1 <= de) ->
  method_to_call sm self (normalize self moves) = (Predicted f, log) ->
  let o := to_offset (freq self) in
  last (df_qty (normalize self moves)).*1 = Some (label o (bin o de)) /\
  f.*1 = label o <$> seqZ (bin o de + 1) (predicted_periods self).
Proof.
  intros Hsm Hne He Hcheck Hmoves Hcall o.
  destruct (normalize_last_bin self moves de Hne He Hcheck Hmoves) as [Hlast Hpos].
  split; [done|].
  apply method_to_call_index in Hcall as [-> _]; [|done].
  assert (Eshift : forall a n, seqZ a n = Z.add a <$> seqZ 0 n)
    by (intros a n; rewrite fmap_add_seqZ; f_equal; lia).
  rewrite (Eshift (bin o de + 1)), (Eshift (len (normalize self moves))).
  rewrite <- !list_fmap_compose. apply list_fmap_ext. intros _ p _. simpl.
  by rewrite Hpos.
Qed.

Lemma forecast_follows_date_end_witness :
  let self := Scenario.request hwes_method 3 in
  last (df_qty (normalize self Scenario.raw)).*1 = Some 19725 /\
  [(19726, 7%Q); (19727, 7%Q); (19728, 7%Q)].*1 = [19726; 19727; 19728].
Proof.
  intros self.
  apply (forecast_follows_date_end Naive.statsmodels self Scenario.raw 19725
           [(19726, 7%Q); (19727, 7%Q); (19728, 7%Q)] []).
  - exact Naive_predict_index.
  - discriminate.
  - reflexivity.
  - by vm_compute.
  - intros r Hr.
    apply elem_of_cons in Hr as [->|Hr]; [by vm_compute|].
    apply list_elem_of_singleton in Hr as ->. by vm_compute.
  - vm_compute. reflexivity.
Defined.

(** X5: with the [date_end] that [_onchange_interval] sets (interval day,
    week, month or year) and no bucket of the query after it, the history
    ends with the period before today's, dated [date_end], and a forecast
    starts with the period that [today] is in. *)
Theorem forecast_starts_with_today sm today self0 self moves f log :
  predict_index sm ->
  interval self0 <> quarter ->
  _onchange_interval today self0 = inr self ->
  moves <> [] ->
  dates_check self ->
  (forall r de, r ∈ moves -> date_end self = Some de -> r.1 <= de) ->
  method_to_call sm self (normalize self moves) = (Predicted f, log) ->
  let o := to_offset (freq self) in
  last (df_qty (normalize self moves)).*1 = date_end self /\
  f.*1 = label o <$> seqZ (bin o today) (predicted_periods self).
Proof.
  intros Hsm Hq Hchange Hne Hcheck Hmoves Hcall o.
  rewrite (onchange_interval_result today self0 Hq) in Hchange.
  injection Hchange as Hself.
  assert (Hfreq : freq self = freq self0) by by rewrite <- Hself.
  assert (He : date_end self = Some (label o (bin o today - 1))).
  { subst o. rewrite Hfreq. by rewrite <- Hself. }
  destruct (normalize_last_bin self moves _ Hne He Hcheck) as [Hlast Hpos].
  { intros r Hr. by apply Hmoves. }
  fold o in Hlast, Hpos.
  rewrite (bin_label _ (to_offset_laws (freq self))) in Hlast, Hpos.
  split; [by rewrite He|].
  apply method_to_call_index in Hcall as [-> _]; [|done].
  assert (Eshift : forall a n, seqZ a n = Z.add a <$> seqZ 0 n)
    by (intros a n; rewrite fmap_add_seqZ; f_equal; lia).
  rewrite (Eshift (bin o today)), (Eshift (len (normalize self moves))).
  rewrite <- !list_fmap_compose. apply list_fmap_ext. intros _ p _. simpl.
  rewrite Hpos. f_equal. lia.
Qed.

Lemma forecast_starts_with_today_witness :
  let self0 := Scenario.unbounded (Scenario.request hwes_method 2) in
  let self := set_date_end_seasons 19730 7 self0 in
  last (df_qty (normalize self Scenario.daily)).*1 = Some 19730 /\
  [(19731, 8%Q); (19732, 8%Q)].*1 = [19731; 19732].
Proof.
  intros self0 self.
  apply (forecast_starts_with_today Naive.statsmodels 19731 self0 self
           Scenario.daily [(19731, 8%Q); (19732, 8%Q)] []).
  - exact Naive_predict_index.
  - discriminate.
  - reflexivity.
  - discriminate.
  - exact I.
  - intros r de Hr [= <-].
    repeat (apply elem_of_cons in Hr as [->|Hr]; [by vm_compute|]).
    by apply elem_of_nil in Hr.
  - vm_compute. reflexivity.
Defined.

(** ** The quantities of the history *)

Lemma Qsum_cons x l : (Qsum (x :: l) == x + Qsum l)%Q.
Proof. unfold Qsum at 1. simpl. by rewrite fold_left_Qplus, Qplus_0_l. Qed.

Lemma Qsum_nonneg l : Forall (fun x => (0 <= x)%Q) l -> (0 <= Qsum l)%Q.
Proof.
  induction 1 as [|x l Hx _ IH]; [by unfold Qsum|].
  rewrite Qsum_cons. rewrite <- (Qplus_0_r 0). by apply Qplus_le_compat.
Qed.

Lemma Qsum_fmap_ext (f g : Z -> Q) l :
  (forall i, i ∈ l -> (f i == g i)%Q) -> (Qsum (f <$> l) == Qsum (g <$> l))%Q.
Proof.
  induction l as [|a l IH]; intros H; [done|].
  cbn [fmap list_fmap]. rewrite !Qsum_cons.
  rewrite (H a ltac:(set_solver)), IH; [done|]. intros i Hi. apply H. set_solver.
Qed.

Lemma Qsum_fmap_plus (f g : Z -> Q) l :
  (Qsum ((fun i => f i + g i) <$> l) == Qsum (f <$> l) + Qsum (g <$> l))%Q.
Proof.
  induction l as [|a l IH]; [done|].
  cbn [fmap list_fmap]. rewrite !Qsum_cons, IH. ring.
Qed.

(** Summing [q] at the one place [b] of a list without duplicates. *)
Lemma Qsum_at (b : Z) q (l : list Z) :
  NoDup l -> b ∈ l ->
  (Qsum ((fun i : Z => if decide (b = i) then q else 0) <$> l) == q)%Q.
Proof.
  induction 1 as [|a l Ha Hl IH]; intros Hb; [by apply elem_of_nil in Hb|].
  cbn [fmap list_fmap]. rewrite Qsum_cons.
  destruct (decide (b = a)) as [->|Hne].
  - rewrite (Qsum_fmap_ext _ (fun _ => 0%Q)).
    + rewrite Qsum_zeros; [ring|]. apply Forall_fmap, Forall_forall. done.
    + intros i Hi. case_decide; [by subst|done].
  - rewrite IH; [ring|]. set_solver.
Qed.

(** Each row is counted in one bin: the bins of a list that holds every
    bin of the rows once add up to the rows. *)
Lemma Qsum_bins o l rows :
  NoDup l ->
  (forall r, r ∈ rows -> bin o r.1 ∈ l) ->
  (Qsum ((fun i => Qsum (in_bin o i rows).*2) <$> l) == Qsum rows.*2)%Q.
Proof.
  intros Hl. induction rows as [|r rows IH]; intros Hin.
  - rewrite Qsum_zeros; [done|]. apply Forall_fmap, Forall_forall. done.
  - cbn [fmap list_fmap]. rewrite Qsum_cons.
    rewrite <- IH by (intros; apply Hin; set_solver).
    transitivity
      (Qsum ((fun i : Z => if decide (bin o r.1 = i) then r.2 else 0) <$> l)
       + Qsum ((fun i => Qsum (in_bin o i rows).*2) <$> l))%Q;
      [|by rewrite (Qsum_at (bin o r.1) r.2 l Hl) by (apply Hin; set_solver)].
    rewrite <- Qsum_fmap_plus. apply Qsum_fmap_ext. intros i _.
    unfold in_bin. rewrite (filter_cons _ r rows).
    repeat case_decide; try done; cbn [fmap list_fmap].
    + apply Qsum_cons.
    + by rewrite Qplus_0_l.
Qed.

(** X6: normalization loses no demand and adds none: the quantities of
    the history add up to the quantities that the query returned. *)
Theorem normalized_total_is_raw_total self moves :
  moves <> [] ->
  (Qsum (df_qty (normalize self moves)).*2 == Qsum moves.*2)%Q.
Proof.
  intros Hne. unfold normalize, fillna.
  destruct (boundaries_spec self moves) as (synth & -> & Hz).
  destruct (resample_sum_spec (freq self) (moves ++ synth))
    as (lo & hi & _ & _ & Hb & ->).
  { by destruct moves. }
  rewrite <- list_fmap_compose.
  rewrite (Qsum_bins (to_offset (freq self)) (seqZ lo (hi - lo + 1)) (moves ++ synth)).
  - rewrite fmap_app. apply Qsum_app_zeros.
    apply Forall_fmap. eapply Forall_impl; [exact Hz|]. done.
  - apply NoDup_seqZ.
  - intros r Hr. apply elem_of_seqZ. specialize (Hb r Hr). lia.
Qed.

Lemma normalized_total_is_raw_total_witness :
  (Qsum (df_qty (normalize (Scenario.early (Scenario.request ar_method 1))
                   Scenario.raw)).*2 == 12)%Q.
Proof.
  rewrite (normalized_total_is_raw_total
             (Scenario.early (Scenario.request ar_method 1)) Scenario.raw);
    [reflexivity | discriminate].
Defined.

(** X7: when no quantity that the query returned is negative, no record
    of the result has a negative quantity, history or forecast. *)
Theorem quantities_nonnegative sm self moves res_moves log :
  (forall r, r ∈ moves -> (0 <= r.2)%Q) ->
  _calculate_data sm self moves = (Moves res_moves, log) ->
  forall r, r ∈ res_moves ->
    exists q, r !! "quantity" = Some (PyFloat q) /\ (0 <= q)%Q.
Proof.
  intros Hpos (Hne & forecast & Hcall & ->)%calculate_data_moves r Hr.
  apply elem_of_app in Hr as [Hr|Hr].
  - change (r ∈ history_move <$> df_qty (normalize self moves)) in Hr.
    apply list_elem_of_fmap in Hr as ([d q] & -> & Hdq).
    exists q. split; [done|].
    destruct (normalize_rows self moves d q Hne Hdq) as (_ & Hq & _).
    rewrite Hq. apply Qsum_nonneg, Forall_fmap, Forall_forall.
    intros x [_ Hx]%list_elem_of_filter. by apply Hpos.
  - destruct forecast as [|prediction]; [by apply elem_of_nil in Hr|].
    change (r ∈ forecast_move <$> to_dict prediction) in Hr.
    apply list_elem_of_fmap in Hr as ([d value] & -> & _).
    eexists. split; [done|]. apply clamp_round_spec.
Qed.

Lemma quantities_nonnegative_witness :
  exists q, forecast_move (19726, 7%Q) !! "quantity" = Some (PyFloat q) /\
            (0 <= q)%Q.
Proof.
  apply (quantities_nonnegative Naive.statsmodels
           (Scenario.request hwes_method 1) Scenario.raw
           (map history_move [(19723, 5%Q); (19724, 0%Q); (19725, 7%Q)]
            ++ [forecast_move (19726, 7%Q)]) []).
  - intros r Hr.
    apply elem_of_cons in Hr as [->|Hr]; [by vm_compute|].
    apply list_elem_of_singleton in Hr as ->. by vm_compute.
  - vm_compute. reflexivity.
  - apply elem_of_app. right. apply list_elem_of_singleton. reflexivity.
Defined.

(** ** The sheet of the export *)

Lemma length_write_moves row l : length (write_moves row l) = (2 * length l)%nat.
Proof.
  revert row. induction l as [|m l IH]; intros row; [done|].
  cbn [write_moves]. rewrite length_app, IH. simpl. lia.
Qed.

(** The record at place [j] is written on row [row + j]. *)
Lemma write_moves_lookup row l (j : nat) r :
  l !! j = Some r ->
  write_moves row l !! (2 * j)%nat
  = Some (Cell (row + Z.of_nat j) 0 (r !! "date_datetime")
            ((if truthy (r !! "forecast") then "red_" else "")
             +:+ "data_time_format")) /\
  write_moves row l !! (2 * j + 1)%nat
  = Some (Cell (row + Z.of_nat j) 1 (r !! "quantity")
            ((if truthy (r !! "forecast") then "red_" else "")
             +:+ "main_data_style")).
Proof.
  revert row j. induction l as [|m l IH]; intros row j H; [done|].
  destruct j as [|j].
  - injection H as ->. rewrite Z.add_0_r. done.
  - cbn [write_moves write_move app].
    replace (2 * S j)%nat with (S (S (2 * j))) by lia.
    replace (S (S (2 * j)) + 1)%nat with (S (S (2 * j + 1))) by lia.
    cbn [lookup list_lookup]. cbn in H.
    destruct (IH (row + 1) j H) as [H0 H1].
    replace (row + 1 + Z.of_nat j) with (row + Z.of_nat (S j)) in H0, H1 by lia.
    split; [exact H0 | exact H1].
Qed.

Lemma insert_desc_last {A} (key : A -> Z) x l :
  Forall (fun y => key x < key y) l -> insert_desc key x l = l ++ [x].
Proof.
  induction 1 as [|y l Hy _ IH]; [done|]. simpl.
  apply Z.ltb_lt in Hy as ->. by rewrite IH.
Qed.

(** Sorting latest first what is in ascending order reverses it. *)
Lemma sorted_reverse_ascending {A} (key : A -> Z) l :
  StronglySorted Z.lt (key <$> l) -> sorted_reverse key l = reverse l.
Proof.
  induction l as [|x l IH]; [done|].
  cbn [fmap list_fmap]. intros [Hx Hl]%StronglySorted_cons.
  cbn [sorted_reverse fold_right]. fold (sorted_reverse key l).
  rewrite IH, reverse_cons by done. apply insert_desc_last.
  apply Forall_reverse, Forall_forall. intros y Hy.
  rewrite Forall_forall in Hx. apply Hx. by apply list_elem_of_fmap_2.
Qed.

Lemma calculate_data_ascending sm self moves res_moves log :
  predict_index sm ->
  _calculate_data sm self moves = (Moves res_moves, log) ->
  StronglySorted Z.lt (date_datetime <$> res_moves).
Proof.
  intros Hsm (Hne & forecast & Hcall & ->)%calculate_data_moves.
  change (date_datetime <$> ?l) with (map date_datetime l).
  rewrite map_app, dates_of_history, normalize_index by done.
  destruct forecast as [|prediction].
  { rewrite app_nil_r. apply position_dates_sorted. }
  apply method_to_call_index in Hcall as [Hf _]; [|done].
  rewrite to_dict_NoDup, dates_of_forecast, Hf
    by (rewrite Hf; apply position_dates_NoDup).
  destruct (decide (0 <= predicted_periods self)) as [Hpp|Hpp].
  - rewrite <- fmap_app, <- seqZ_app by (unfold len; lia).
    apply position_dates_sorted.
  - rewrite (seqZ_nil _ (predicted_periods self)) by lia.
    rewrite app_nil_r. apply position_dates_sorted.
Qed.

(** X8: when the export writes a sheet, the sheet is the header and two
    cells for each record of [_calculate_data], every record once, on the
    rows from 1 on without a gap, by date with the latest first: the record
    at place [j] of that order has its date in column 0 and its quantity in
    column 1 of row [j + 1], in the [red_] formats when it is a forecast. *)
Theorem export_rows_latest_first xw sm today sc nm self moves worksheet log :
  action_export_to_xlsx xw sm today sc nm self moves
  = inr (download worksheet, log) ->
  exists res_moves sorted,
    _calculate_data sm self moves = (Moves res_moves, log) /\
    sorted ≡ₚ res_moves /\
    StronglySorted (fun a b => date_datetime b <= date_datetime a) sorted /\
    length worksheet = (2 + 2 * length res_moves)%nat /\
    forall (j : nat) r,
      sorted !! j = Some r ->
      let red := if truthy (r !! "forecast") then "red_" else "" in
      worksheet !! (2 + 2 * j)%nat
      = Some (Cell (1 + Z.of_nat j) 0 (r !! "date_datetime")
                (red +:+ "data_time_format")) /\
      worksheet !! (2 + 2 * j + 1)%nat
      = Some (Cell (1 + Z.of_nat j) 1 (r !! "quantity")
                (red +:+ "main_data_style")).
Proof.
  unfold action_export_to_xlsx.
  destruct (add_worksheet xw (xlsx_name sc nm today)); [done|]. cbn [bind_exn].
  destruct (_calculate_data sm self moves) as [[|res_moves] log'] eqn:E;
    [done|].
  destruct (not_ (Moves res_moves)) eqn:Hnot; [done|]. intros H.
  assert (Hw : worksheet
               = header ++ write_moves 1 (sorted_reverse date_datetime res_moves))
    by congruence.
  assert (Hlog : log' = log) by congruence.
  subst worksheet log'.
  exists res_moves, (sorted_reverse date_datetime res_moves).
  split; [done|]. split; [apply sorted_reverse_perm|].
  split; [apply sorted_reverse_sorted|]. split.
  - rewrite length_app, length_write_moves.
    by rewrite (Permutation_length (sorted_reverse_perm date_datetime res_moves)).
  - intros j r Hj.
    destruct (write_moves_lookup 1 _ j r Hj) as [H0 H1].
    split; [exact H0 | exact H1].
Qed.

Lemma export_rows_latest_first_witness :
  exists res_moves sorted,
    _calculate_data Naive.statsmodels (Scenario.request hwes_method 1) Scenario.raw
    = (Moves res_moves, []) /\
    sorted ≡ₚ res_moves /\
    sorted !! 0%nat = Some (forecast_move (19726, 7%Q)).
Proof.
  destruct (export_rows_latest_first Xlsx.xlsxwriter Naive.statsmodels
              (Calendar.date 2024 1 4) Xlsx.by_product Xlsx.widget
              (Scenario.request hwes_method 1) Scenario.raw
              (header ++ write_moves 1
                 (forecast_move (19726, 7%Q)
                  :: map history_move [(19725, 7%Q); (19724, 0%Q); (19723, 5%Q)]))
              [])
    as (res_moves & sorted & E & Hperm & _); [vm_compute; reflexivity|].
  exists (map history_move [(19723, 5%Q); (19724, 0%Q); (19725, 7%Q)]
          ++ [forecast_move (19726, 7%Q)]),
    (forecast_move (19726, 7%Q)
     :: map history_move [(19725, 7%Q); (19724, 0%Q); (19723, 5%Q)]).
  split; [vm_compute; reflexivity|]. split; [|reflexivity].
  change (reverse (map history_move [(19723, 5%Q); (19724, 0%Q); (19725, 7%Q)]
                   ++ [forecast_move (19726, 7%Q)])
          ≡ₚ map history_move [(19723, 5%Q); (19724, 0%Q); (19725, 7%Q)]
             ++ [forecast_move (19726, 7%Q)]).
  apply reverse_Permutation.
Defined.

(** X9: the records of [_calculate_data] come in ascending order of
    date, so the sheet that the export writes holds them in the reverse of
    that order: of [n] records, the one at place [i] is written on row
    [n - i]; the log is that of [_calculate_data]. *)
Theorem export_reverses_result xw sm today sc nm self moves res_moves log
    worksheet log' :
  predict_index sm ->
  _calculate_data sm self moves = (Moves res_moves, log) ->
  action_export_to_xlsx xw sm today sc nm self moves
  = inr (download worksheet, log') ->
  worksheet = header ++ write_moves 1 (reverse res_moves) /\
  log' = log /\
  forall (i : nat) r,
    res_moves !! i = Some r ->
    let n := length res_moves in
    let red := if truthy (r !! "forecast") then "red_" else "" in
    worksheet !! (2 * (n - i))%nat
    = Some (Cell (Z.of_nat (n - i)) 0 (r !! "date_datetime")
              (red +:+ "data_time_format")).
Proof.
  intros Hsm E Hx.
  pose proof (calculate_data_ascending sm self moves res_moves log Hsm E) as Hs.
  pose proof E as (Hne & forecast & _ & Hres)%calculate_data_moves.
  assert (Hnil : res_moves <> []).
  { rewrite Hres. pose proof (normalize_nonempty self moves Hne).
    by destruct (df_qty (normalize self moves)). }
  assert (Hw : worksheet = header ++ write_moves 1 (reverse res_moves)
               /\ log' = log).
  { unfold action_export_to_xlsx in Hx.
    destruct (add_worksheet xw (xlsx_name sc nm today)); [done|].
    cbn [bind_exn] in Hx. rewrite E in Hx.
    destruct res_moves as [|first rest]; [done|]. cbn [not_] in Hx.
    rewrite (sorted_reverse_ascending date_datetime (first :: rest) Hs) in Hx.
    split; congruence. }
  destruct Hw as [-> ->]. split; [done|]. split; [done|].
  intros i r Hi n red.
  pose proof (lookup_lt_Some _ _ _ Hi) as Hlt. fold n in Hlt.
  assert (Hrev : reverse res_moves !! (n - i - 1)%nat = Some r).
  { rewrite reverse_lookup by (fold n; lia).
    rewrite <- Hi. f_equal. fold n. lia. }
  destruct (write_moves_lookup 1 _ _ r Hrev) as [H0 _].
  replace (2 * (n - i))%nat with (2 + 2 * (n - i - 1))%nat by lia.
  replace (Z.of_nat (n - i)) with (1 + Z.of_nat (n - i - 1)) by lia.
  exact H0.
Qed.

Lemma export_reverses_result_witness :
  let res_moves :=
    map history_move [(19723, 5%Q); (19724, 0%Q); (19725, 7%Q)]
    ++ [forecast_move (19726, 7%Q)] in
  action_export_to_xlsx Xlsx.xlsxwriter Naive.statsmodels (Calendar.date 2024 1 4)
    Xlsx.by_product Xlsx.widget (Scenario.request hwes_method 1) Scenario.raw
  = inr (download (header ++ write_moves 1 (reverse res_moves)), []) /\
  (header ++ write_moves 1 (reverse res_moves)) !! 2%nat
  = Some (Cell 1 0 (Some (PyDate 19726)) "red_data_time_format").
Proof.
  intros res_moves.
  destruct (export_reverses_result Xlsx.xlsxwriter Naive.statsmodels
              (Calendar.date 2024 1 4) Xlsx.by_product Xlsx.widget
              (Scenario.request hwes_method 1) Scenario.raw res_moves []
              (header ++ write_moves 1 (reverse res_moves)) [])
    as (_ & _ & H).
  - exact Naive_predict_index.
  - vm_compute. reflexivity.
  - vm_compute. reflexivity.
  - split; [vm_compute; reflexivity|].
    exact (H 3%nat (forecast_move (19726, 7%Q)) eq_refl).
Defined.

(** ** The clauses of the query *)

Module QueryFacts.
Import Query.

Ltac refute H :=
  apply (bool_decide_pack _) in H; vm_compute in H; destruct H.

Ltac configurations sc self :=
  unfold query, _build_dynamic_clause;
  destruct sc as [[] [] []];
  destruct (date_start self), (date_end self);
  cbn [stats_type stats_for include_children].

End QueryFacts.

(** X10: whatever is selected on the form, every table that the
    [where_clause] of [_build_dynamic_clause] selects from is declared in
    its [with_clause], the [with_clause] itself reads only what it declares
    and the two tables [stock_location] and [product_product], and it
    declares no table twice.  It is empty exactly for the demand of one
    location without its children and of one product; otherwise it is
    introduced by one [WITH], the only one. *)
Theorem with_clause_declares_tables sc self :
  let where_clause := (Query._build_dynamic_clause sc self).1 in
  let with_clause := (Query._build_dynamic_clause sc self).2 in
  let declared := Query.declared (Query.split with_clause) in
  Query.tables (Query.split where_clause) ⊆ declared /\
  Query.tables (Query.split with_clause)
    ⊆ declared ++ ["stock_location"; "product_product"] /\
  NoDup declared /\
  (with_clause = ""
   <-> Query.stats_type sc = Query.location_demand /\
       Query.include_children sc = false /\
       Query.stats_for sc = Query.product) /\
  (with_clause <> "" ->
   head (Query.split with_clause) = Some "WITH" /\
   length (filter (fun w => w = "WITH") (Query.split with_clause)) = 1%nat).
Proof.
  QueryFacts.configurations sc self;
    (split; [compute_done|]); (split; [compute_done|]);
    (split; [compute_done|]); (split; [split|]);
    try (intros H; by vm_compute in H);
    try (intros (? & ? & ?); done);
    try (intros _; by vm_compute);
    try done.
Qed.

Lemma with_clause_declares_tables_witness :
  let sc := {| Query.stats_type := Query.location_demand;
               Query.stats_for := Query.template;
               Query.include_children := true |} in
  let with_clause :=
    (Query._build_dynamic_clause sc (Scenario.request ar_method 1)).2 in
  Query.declared (Query.split with_clause) = ["child_locs"; "templ_products"] /\
  head (Query.split with_clause) = Some "WITH".
Proof.
  intros sc with_clause.
  destruct (with_clause_declares_tables sc (Scenario.request ar_method 1))
    as (_ & _ & _ & _ & H).
  split; [by vm_compute|]. apply H. by vm_compute.
Defined.

(** X11: every named parameter that the query of [_calculate_data] refers
    to is a key of [options], whatever is selected on the form.  The query
    always refers to the interval and to the company; it refers to
    [date_start] and to [date_end] exactly when the date is set, to the
    product or to the template according to [stats_for], and to the location
    exactly for the demand of a location.  Its conditions stay a conjunction:
    the [where_clause] begins with [AND]. *)
Theorem query_parameters_in_options sc self :
  let used := Query.placeholders (Query.query sc self) in
  used ⊆ Query.options /\
  "interval" ∈ used /\
  "company_id" ∈ used /\
  ("date_start" ∈ used <-> is_Some (date_start self)) /\
  ("date_end" ∈ used <-> is_Some (date_end self)) /\
  ("product_id" ∈ used <-> Query.stats_for sc = Query.product) /\
  ("template_id" ∈ used <-> Query.stats_for sc = Query.template) /\
  ("location_id" ∈ used <-> Query.stats_type sc = Query.location_demand) /\
  head (Query.split (Query._build_dynamic_clause sc self).1) = Some "AND".
Proof.
  QueryFacts.configurations sc self;
    (split; [compute_done|]); (split; [compute_done|]);
    (split; [compute_done|]);
    repeat (split;
      [split;
       [first [ intros _; by eauto
              | intros H; QueryFacts.refute H ]
       |first [ intros _; compute_done
              | intros H; by destruct H
              | intros H; discriminate H ]]|]);
    by vm_compute.
Qed.

Lemma query_parameters_in_options_witness :
  let sc := {| Query.stats_type := Query.company_demand;
               Query.stats_for := Query.product;
               Query.include_children := false |} in
  Query.placeholders (Query.query sc (Scenario.request ar_method 1))
  = ["company_id"; "interval"; "company_id"; "product_id"; "date_start"; "date_end"] /\
  is_Some (date_start (Scenario.request ar_method 1)).
Proof.
  intros sc.
  destruct (query_parameters_in_options sc (Scenario.request ar_method 1))
    as (_ & _ & _ & H & _).
  split; [by vm_compute|]. apply H. compute_done.
Defined.

(** ** The two handlers of the form *)

(** X12: [_onchange_interval] writes [date_end] and [seasons] and reads
    neither of them: when it returns, [date_end] is set, every other field of
    the form is as it was, a second run on the same day changes nothing, and
    the outcome is the same whether [_onchange_forecast_method], which writes
    [predicted_periods] only, runs before it or after it. *)
Theorem onchange_handlers_independent today param self self' :
  _onchange_interval today self = inr self' ->
  is_Some (date_end self') /\
  (date_start self' = date_start self /\
   interval self' = interval self /\
   forecast_method self' = forecast_method self /\
   predicted_periods self' = predicted_periods self /\
   lags self' = lags self /\
   (p_coefficient self', d_coefficient self', q_coefficient self')
   = (p_coefficient self, d_coefficient self, q_coefficient self) /\
   (seasonal_p_coefficient self', seasonal_d_coefficient self',
    seasonal_q_coefficient self')
   = (seasonal_p_coefficient self, seasonal_d_coefficient self,
      seasonal_q_coefficient self)) /\
  _onchange_interval today self' = inr self' /\
  _onchange_interval today (_onchange_forecast_method param self)
  = inr (_onchange_forecast_method param self').
Proof.
  intros H.
  assert (exists res_date s,
             self' = set_date_end_seasons res_date s self /\
             forall other, interval other = interval self ->
               _onchange_interval today other
               = inr (set_date_end_seasons res_date s other))
    as (res_date & s & -> & Hany).
  { assert (interval self = quarter \/ interval self <> quarter) as [Hq|Hq]
      by (destruct (interval self); by eauto).
    - rewrite (onchange_interval_quarter_result today self Hq) in H.
      cbv zeta in H.
      destruct ((Calendar.month_index today mod 12 =? 1)
                || (Calendar.month_index today mod 12 =? 2)) eqn:Em;
        [discriminate H|].
      injection H as <-. eexists _, _. split; [reflexivity|].
      intros other Ho.
      rewrite (onchange_interval_quarter_result today other) by congruence.
      cbv zeta. by rewrite Em.
    - rewrite (onchange_interval_result today self Hq) in H.
      injection H as <-. eexists _, _. split; [reflexivity|].
      intros other Ho.
      rewrite (onchange_interval_result today other) by congruence.
      unfold freq. by rewrite Ho. }
  split; [by eexists|]. split; [done|]. split.
  - by rewrite (Hany (set_date_end_seasons res_date s self)).
  - by rewrite (Hany (_onchange_forecast_method param self)).
Qed.

Lemma onchange_handlers_independent_witness :
  let self := Scenario.request sarima_method 4 in
  let self' := set_date_end_seasons (Calendar.date 2024 5 14) 7 self in
  _onchange_interval (Calendar.date 2024 5 15) (_onchange_forecast_method 2 self)
  = inr (_onchange_forecast_method 2 self').
Proof.
  intros self self'.
  apply (onchange_handlers_independent (Calendar.date 2024 5 15) 2 self self').
  vm_compute. reflexivity.
Defined.
